(** * backup.py: the backup orchestrator, embedded and verified

    The script runs a fixed sequence of backup tasks, collects the failure of
    each one in a shared list and mails one summary.  This file embeds the
    script as state-passing functions over a world that holds the trace of
    external effects and the heap of Python list objects, and proves the
    properties of its error aggregation and notification.

    Python strings are modelled as [string]: a character is a code point
    below 256. *)

From Stdlib Require Import ZArith Ascii String DecimalString.
From stdpp Require Import base list gmap strings.

Local Open Scope string_scope.
Local Open Scope list_scope.

(** ** Python text primitives *)

Module Py.

Definition nl : string := String "010"%char "".

(** [str.isspace] on one code point below 256: the ASCII white space
    (tab to carriage return, the four separators 28..31, the space) and
    the two Latin-1 ones, NEL and the no-break space. *)
Definition isspace (c : ascii) : bool :=
  let n := nat_of_ascii c in
  (((9 <=? n) && (n <=? 13)) || ((28 <=? n) && (n <=? 32))
   || (n =? 133) || (n =? 160))%nat.

Fixpoint lstrip (s : string) : string :=
  match s with
  | "" => ""
  | String c s' => if isspace c then lstrip s' else s
  end.

Fixpoint rstrip (s : string) : string :=
  match s with
  | "" => ""
  | String c s' =>
      match rstrip s' with
      | "" => if isspace c then "" else String c ""
      | r => String c r
      end
  end.

(** [s.strip()] *)
Definition strip (s : string) : string := rstrip (lstrip s).

(** [str(n)] for an [int] *)
Definition str_int (z : Z) : string := NilZero.string_of_int (Z.to_int z).

Definition str_nat (n : nat) : string := str_int (Z.of_nat n).

(** [in] on a string and one character *)
Fixpoint contains (c : ascii) (s : string) : bool :=
  match s with
  | "" => false
  | String d s' => Ascii.eqb c d || contains c s'
  end.

Definition hex_digit (n : nat) : ascii :=
  if (n <? 10)%nat then ascii_of_nat (48 + n) else ascii_of_nat (87 + n).

(** a code point that [repr] copies unchanged when it is not ASCII *)
Definition isprintable_latin1 (n : nat) : bool :=
  ((161 <=? n) && negb (n =? 173))%nat.

Definition repr_char (quote : ascii) (c : ascii) : string :=
  let n := nat_of_ascii c in
  if Ascii.eqb c quote || Ascii.eqb c "\"%char then String "\"%char (String c "")
  else if (n =? 9)%nat then "\t"
  else if (n =? 10)%nat then "\n"
  else if (n =? 13)%nat then "\r"
  else if ((n <? 32) || (n =? 127) || ((127 <? n) && negb (isprintable_latin1 n)))%nat
       then String "\"%char (String "x"%char (String (hex_digit (n / 16))
                                       (String (hex_digit (n mod 16)) "")))
  else String c "".

Fixpoint repr_chars (quote : ascii) (s : string) : string :=
  match s with
  | "" => ""
  | String c s' => repr_char quote c +:+ repr_chars quote s'
  end.

(** [repr(s)] for a [str] *)
Definition repr_str (s : string) : string :=
  let quote : ascii :=
    if contains "'"%char s && negb (contains "034"%char s) then "034"%char
    else "'"%char in
  String quote (repr_chars quote s +:+ String quote "").

Fixpoint join (sep : string) (l : list string) : string :=
  match l with
  | [] => ""
  | [s] => s
  | s :: l' => s +:+ sep +:+ join sep l'
  end.

(** [repr(l)] for a list of [str], as an f-string prints [proc.args] *)
Definition repr_list (l : list string) : string :=
  "[" +:+ join ", " (map repr_str l) +:+ "]".

End Py.

(** ** Exceptions and values *)

(** What a call can raise.  [ShellError] is the script's own class; the two
    other constructors stand for the rest of Python's hierarchy, each with
    the text [str(e)] gives: the instances of [Exception] (OSError, the
    smtplib errors, ...) and the instances of [BaseException] that are not
    instances of [Exception] (KeyboardInterrupt, SystemExit). *)
Inductive exn : Type :=
  | ShellError (msg : string)
  | PyException (text : string)
  | PyBaseException (text : string).

(** [isinstance(e, Exception)]; [ShellError] derives from [Exception]. *)
Definition is_Exception (e : exn) : bool :=
  match e with
  | ShellError _ | PyException _ => true
  | PyBaseException _ => false
  end.

(** [str(e)]: [ShellError.__init__] passes no argument on, but
    [BaseException.__new__] has kept [msg] as the only argument. *)
Definition str_exn (e : exn) : string :=
  match e with
  | ShellError msg => msg
  | PyException text => text
  | PyBaseException text => text
  end.

(** The values that reach the error list and the notifier: a [str] or an
    exception object. *)
Inductive pyval : Type :=
  | VStr (s : string)
  | VExc (e : exn).

(** [str(v)] *)
Definition py_str (v : pyval) : string :=
  match v with
  | VStr s => s
  | VExc e => str_exn e
  end.

Inductive Result (A : Type) : Type :=
  | Ok (a : A)
  | Raise (e : exn).
Arguments Ok {A} a.
Arguments Raise {A} e.

(** ** The world: external effects and the heap *)

Inductive event : Type :=
  | Print (line : string)
  | Popen (cmd : list string) (stdin_str : option string)
          (env : option (gmap string string))
  | Chdir (path : string)
  | Randbelow (n j : nat)
  | Smtp (host : string) (port : nat) (user password : string)
         (from_addr to_addr message : string) (sent : bool).

Definition is_popen (e : event) : bool :=
  match e with Popen _ _ _ => true | _ => false end.
Definition is_chdir (e : event) : bool :=
  match e with Chdir _ => true | _ => false end.
Definition is_randbelow (e : event) : bool :=
  match e with Randbelow _ _ => true | _ => false end.
Definition is_smtp (e : event) : bool :=
  match e with Smtp _ _ _ _ _ _ _ _ => true | _ => false end.

(** the events of one kind, in the order they happened *)
Definition only (p : event -> bool) (tr : list event) : list event :=
  List.filter p tr.

Definition count (p : event -> bool) (tr : list event) : nat :=
  length (only p tr).

(** A list object lives in the heap and is named by its address, so that a
    list passed to a callee is the caller's list. *)
Abbreviation loc := nat.

Record World : Type := mkWorld {
  trace : list event;
  heap : list (list pyval);
}.

Definition emit (e : event) (w : World) : World :=
  mkWorld (trace w ++ [e]) (heap w).

(** How a subprocess ends: it exits with a return code and its two output
    streams, or [Popen]/[communicate] raise. *)
Inductive proc_outcome : Type :=
  | Exited (returncode : Z) (stdout stderr : string)
  | ProcRaised (text : string).

(** What the script does not decide: the answer to each external call (the
    k-th call of a kind gets the k-th answer), the inherited environment,
    the clock and the paths [pathlib] builds.  An external call that fails
    raises an instance of [Exception]; [Some text] is that failure.  An
    SMTP session that raises may do so before [sendmail] has passed the
    message on, or at the end of the [with] block, when [SMTP.__exit__]
    gets another reply to QUIT than 221 and the message has already been
    delivered: [delivered_before_raise] tells the two apart. *)
Record Oracle : Type := mkOracle {
  proc_result : nat -> proc_outcome;
  chdir_result : nat -> option string;
  smtp_result : nat -> option string;
  delivered_before_raise : nat -> bool;
  random_draw : nat -> nat;
  environ : gmap string string;
  ctime : string;
  home : string;
  path_join : string -> string -> string;
}.

(** ** The monad of the script: state and exceptions *)

Definition M (A : Type) : Type := World -> Result A * World.

Global Instance M_ret : MRet M := fun A a w => (Ok a, w).

Global Instance M_bind : MBind M := fun A B f m w =>
  match m w with
  | (Ok a, w') => f a w'
  | (Raise e, w') => (Raise e, w')
  end.

Definition raise {A : Type} (e : exn) : M A := fun w => (Raise e, w).

Definition print (line : string) : M unit :=
  fun w => (Ok tt, emit (Print line) w).

(** [for x in l: body(x)] *)
Fixpoint for_each {A : Type} (l : list A) (body : A -> M unit) : M unit :=
  match l with
  | [] => mret tt
  | x :: l' => body x ;; for_each l' body
  end.

(** [[]]: a fresh list object *)
Definition new_list : M loc :=
  fun w => (Ok (length (heap w)), mkWorld (trace w) (heap w ++ [[]])).

(** [l.append(v)]; a reference always names a list object of the heap *)
Definition list_append (l : loc) (v : pyval) : M unit :=
  fun w => (Ok tt, mkWorld (trace w) (alter (fun es => es ++ [v]) l (heap w))).

(** the elements of the list object at [l] *)
Definition list_read (l : loc) : M (list pyval) :=
  fun w => (Ok (default [] (heap w !! l)), w).

(** ** Backup config *)

Definition BACKUP_DIRS : list string :=
  [ "Documents"; "Pictures"; "Music"; "Videos"; "build";
    "AppData/Roaming"; "VirtualBox VMs" ].

(** a [dict] whose iteration order matters: the pairs in insertion order *)
Definition RESTIC_ENV_VARS : list (string * string) :=
  [ ("RESTIC_REPOSITORY", "s3:s3.us-east-005.backblazeb2.com/MYBUCKETNAME");
    ("AWS_ACCESS_KEY_ID", "*************");
    ("AWS_SECRET_ACCESS_KEY", "*********************");
    ("RESTIC_PASSWORD", "*************************") ].

Definition EMAIL_ADDRESS : string := "me@example.com".
Definition EMAIL_PASSWORD : string := "*******************".

Definition EXCLUDE_PATH_PATTERNS : list string :=
  [ "node_modules/**"; ".cache/**"; ".vscode/**"; ".npm/**";
    ".vscode-server/**" ].

Definition gen_exclude_flags (patterns : list string) : list string :=
  foldl (fun flags pattern => (flags ++ ["--exclude"]) ++ [pattern]) [] patterns.

Definition RESTIC_DEFAULT_ARGS : list string :=
  gen_exclude_flags EXCLUDE_PATH_PATTERNS.

Definition RCLONE_BASE : list string :=
  ["rclone"; "sync"; "--links"] ++ gen_exclude_flags EXCLUDE_PATH_PATTERNS.

(** [for var, val in RESTIC_ENV_VARS.items(): env[var] = val] *)
Definition add_restic_env (env : gmap string string) : gmap string string :=
  foldl (fun env vv => <[vv.1 := vv.2]> env) env RESTIC_ENV_VARS.

(** ** The script *)

Section Script.

Variable O : Oracle.

Definition RCLONE_DEST_PATH : string := path_join O (home O) "backup".

(** *** External calls *)

(** [subprocess.Popen(cmd, ..., env=env)] followed by
    [proc.communicate(stdin_str)] *)
Definition popen_communicate (cmd : list string) (stdin_str : option string)
    (env : option (gmap string string)) : M (Z * string * string) :=
  fun w =>
    let w' := emit (Popen cmd stdin_str env) w in
    match proc_result O (count is_popen (trace w)) with
    | Exited rc out err => (Ok (rc, out, err), w')
    | ProcRaised text => (Raise (PyException text), w')
    end.

Definition chdir (path : string) : M unit :=
  fun w =>
    let w' := emit (Chdir path) w in
    match chdir_result O (count is_chdir (trace w)) with
    | None => (Ok tt, w')
    | Some text => (Raise (PyException text), w')
    end.

(** [random._randbelow(n)], for [0 < n] *)
Definition randbelow (n : nat) : M nat :=
  fun w =>
    let j := random_draw O (count is_randbelow (trace w)) mod n in
    (Ok j, emit (Randbelow n j) w).

(** One SMTP session: [SMTP_SSL(host, port)], [login], [sendmail] and the
    end of the [with] block.  The session returns after it has sent the
    message, or it raises: without having sent it when connecting, logging
    in or [sendmail] fail, and after having sent it when the end of the
    [with] block fails. *)
Definition smtp_session (host : string) (port : nat) (user password : string)
    (from_addr to_addr message : string) : M unit :=
  fun w =>
    let k := count is_smtp (trace w) in
    let session sent :=
      Smtp host port user password from_addr to_addr message sent in
    match smtp_result O k with
    | None => (Ok tt, emit (session true) w)
    | Some text =>
        (Raise (PyException text), emit (session (delivered_before_raise O k)) w)
    end.

(** *** Command Runner *)

Definition shell_error_msg (args : list string) (returncode : Z)
    (stdout stderr : string) : string :=
  "[script] Failed to run command: " +:+ Py.repr_list args +:+ Py.nl +:+
  "[script] Return code: " +:+ Py.str_int returncode +:+ Py.nl +:+ Py.nl +:+
  "[script] Stdout:" +:+ Py.nl +:+ stdout +:+ Py.nl +:+
  "[script] Stderr:" +:+ Py.nl +:+ stderr.

Definition sh (cmd : list string) (check : bool) (stdin_str : option string)
    (env : option (gmap string string)) : M string :=
  print ("Running command: " +:+ Py.repr_list cmd) ;;
  '(returncode, stdout, stderr) ← popen_communicate cmd stdin_str env ;
  let stdout := Py.strip stdout in
  let stderr := Py.strip stderr in
  if check && negb (returncode =? 0)%Z then
    let msg := shell_error_msg cmd returncode stdout stderr in
    print msg ;;
    raise (ShellError msg)
  else
    (if (0 <? String.length stdout)%nat || (0 <? String.length stderr)%nat
     then print ("[script] Stdout:" +:+ Py.nl +:+ stdout +:+ Py.nl +:+
                 "[script] Stderr:" +:+ Py.nl +:+ stderr)
     else mret tt) ;;
    mret stdout.

(** *** Notifier *)

Definition mail_text (subject body : string) : string :=
  "Subject: " +:+ subject +:+ Py.nl +:+ Py.nl +:+ body.

Definition notify (subject : string) (msg : pyval) : M unit :=
  let port := 465 in
  let message := mail_text subject (py_str msg) in
  smtp_session "smtp.gmail.com" port EMAIL_ADDRESS EMAIL_PASSWORD
    EMAIL_ADDRESS EMAIL_ADDRESS message.

(** *** Task Wrapper *)

Definition try_task (task_func : M unit) (error_list : loc) : M unit :=
  fun w =>
    match task_func w with
    | (Ok _, w') => (Ok tt, w')
    | (Raise (ShellError msg), w') => list_append error_list (VStr msg) w'
    | (Raise e, w') =>
        if is_Exception e then list_append error_list (VExc e) w'
        else (Raise e, w')
    end.

(** *** Task Catalog *)

Definition backup_windows_dir (dir : string) : M unit :=
  print ("Snapshotting dir with restic: " +:+ dir) ;;
  let cmd :=
    (["restic"] ++ RESTIC_DEFAULT_ARGS)
    ++ ["backup"; dir; "--use-fs-snapshot"; "--tag"; "Windows"] in
  let env := add_restic_env (environ O) in
  sh cmd true None (Some env) ;;
  print ("Finished snapshotting dir with restic: " +:+ dir).

Definition backup_aws : M unit :=
  let ghidra_src := "ghidra:/home/ghidra" in
  let ghidra_dst := path_join O (path_join O RCLONE_DEST_PATH "aws") "ghidra" in
  let ghidra_cmd :=
    RCLONE_BASE ++ [ghidra_src; ghidra_dst; "--exclude"; ".dotfiles/**"] in
  sh ghidra_cmd true None None ;;
  print "Downloaded Ghidra community server repository" ;;
  let twitchbot_src := "twitchbot:/home/twitchbot" in
  let twitchbot_dst :=
    path_join O (path_join O RCLONE_DEST_PATH "aws") "twitchbot" in
  let twitchbot_cmd :=
    RCLONE_BASE ++ [twitchbot_src; twitchbot_dst; "--exclude"; ".dotfiles/**"] in
  sh twitchbot_cmd true None None ;;
  print "Downloaded twitchbot".

Definition commit_notes : M unit :=
  let date := ctime O in
  chdir (path_join O (path_join O (home O) "Documents") "notes") ;;
  sh ["git"; "add"; "."] true None None ;;
  sh ["git"; "commit"; "-m"; "Update " +:+ date] false None None ;;
  print "Committed notes".

Definition choco_upgrade : M unit :=
  sh ["choco"; "upgrade"; "all"] true None None ;;
  print "Upgraded Chocolatey packages".

Definition wsl_upgrade : M unit :=
  sh ["wsl.exe"; "sudo"; "apt"; "update"] true None None ;;
  sh ["wsl.exe"; "sudo"; "apt"; "upgrade"; "-y"] true None None ;;
  print "Updated apt packages in WSL".

(** [x[i], x[j] = x[j], x[i]]; an index out of range raises [IndexError] *)
Definition swap {A : Type} (x : list A) (i j : nat) : option (list A) :=
  match x !! j, x !! i with
  | Some xj, Some xi => Some (<[j := xi]> (<[i := xj]> x))
  | _, _ => None
  end.

(** The loop of [random.shuffle], from index [i] down to 1:
    [j = randbelow(i + 1)] and the exchange of [x[i]] and [x[j]]. *)
Fixpoint shuffle_from {A : Type} (i : nat) (x : list A) : M (list A) :=
  match i with
  | 0 => mret x
  | S i' =>
      j ← randbelow (S i) ;
      match swap x i j with
      | Some x' => shuffle_from i' x'
      | None => raise (PyException "list index out of range")
      end
  end.

(** [random.shuffle(x)], on the private copy [x] *)
Definition shuffle {A : Type} (x : list A) : M (list A) :=
  shuffle_from (length x - 1) x.

Definition backup_c_drive (errors : loc) : M unit :=
  shuffled_dirs ← shuffle BACKUP_DIRS ;
  for_each shuffled_dirs (fun backup_dir =>
    let source_path := path_join O (home O) backup_dir in
    try_task (backup_windows_dir source_path) errors) ;;
  print "Backed up C drive".

(** the value [backup_wsl] gives the variable WSLENV *)
Definition gen_wslenv (env : gmap string string) : string :=
  let wslenv :=
    match env !! "WSLENV" with
    | Some v => v
    | None => ""
    end in
  foldl (fun wslenv vv => wslenv +:+ ":" +:+ vv.1) wslenv RESTIC_ENV_VARS.

Definition backup_wsl : M unit :=
  let env := environ O in
  let wslenv := gen_wslenv env in
  let env := <["WSLENV" := wslenv]> env in
  let env := add_restic_env env in
  let cmd :=
    [ "wsl.exe"; "--shell-type"; "none"; "/home/alex/.local/bin/restic";
      "backup"; "/home/alex"; "--tag"; "WSL" ] ++ RESTIC_DEFAULT_ARGS in
  sh cmd true None (Some env) ;;
  print "Backed up WSL".

Definition check_restic_integrity : M unit :=
  let env := add_restic_env (environ O) in
  sh ["restic"; "check"] true None (Some env) ;;
  mret tt.

(** *** Orchestrator *)

Definition failure_subject (n : nat) : string :=
  "Backup failed! " +:+ Py.str_nat n +:+ " error" +:+
  (if (n =? 1)%nat then "" else "s").

(** ["".join(str(e) for e in errors).strip()] *)
Definition failure_body (errors : list pyval) : string :=
  Py.strip (Py.join "" (map py_str errors)).

Definition do_backup_windows : M unit :=
  errors ← new_list ;
  try_task commit_notes errors ;;
  try_task backup_aws errors ;;
  try_task choco_upgrade errors ;;
  try_task wsl_upgrade errors ;;
  try_task (backup_c_drive errors) errors ;;
  try_task backup_wsl errors ;;
  try_task check_restic_integrity errors ;;
  es ← list_read errors ;
  (if (length es =? 0)%nat then
     notify "Backup succeeded" (VStr "Hope you're having a nice day :)")
   else
     let subject := failure_subject (length es) in
     let msg := failure_body es in
     notify subject (VStr msg)) ;;
  print "Reported backup errors".

(** the [__main__] block: [except Exception] around the orchestrator *)
Definition main : M unit :=
  fun w =>
    match do_backup_windows w with
    | (Ok _, w') => (Ok tt, w')
    | (Raise e, w') =>
        if is_Exception e then notify "Backup failed: 1 error" (VExc e) w'
        else (Raise e, w')
    end.

End Script.

(** the state of the interpreter when the script starts *)
Definition initial : World := mkWorld [] [].

(** * Vocabulary of the properties *)

(** [w'] comes after [w] in a run that sent no mail: the trace has grown by
    events that are not SMTP sessions, and every list object has kept its
    elements and grown at its end. *)
Record extends (w w' : World) : Prop := mkExtends {
  ext_trace : exists tr, trace w' = trace w ++ tr /\ only is_smtp tr = [];
  ext_heap : forall (l : loc) (es : list pyval),
      heap w !! l = Some es -> exists suf, heap w' !! l = Some (es ++ suf);
}.

(** a result that [except Exception] handles *)
Definition catchable {A : Type} (r : Result A) : Prop :=
  match r with
  | Ok _ => True
  | Raise e => is_Exception e = true
  end.

(** [m] behaves as a task: from every world it sends no mail, only lets the
    lists grow, and raises nothing but instances of [Exception]. *)
Definition task {A : Type} (m : M A) : Prop :=
  forall w, extends w (m w).2 /\ catchable (m w).1.

(** ** The phases of the orchestrator *)

Section Phases.

Variable O : Oracle.

(** the task functions the orchestrator wraps, in its order *)
Definition catalog (errors : loc) : list (M unit) :=
  [ commit_notes O; backup_aws O; choco_upgrade O; wsl_upgrade O;
    backup_c_drive O errors; backup_wsl O; check_restic_integrity O ].

(** the first [k] wrapped tasks of the catalog *)
Definition run_tasks (k : nat) (errors : loc) : M unit :=
  for_each (take k (catalog errors)) (fun t => try_task t errors).

(** the decision and the notification that end [do_backup_windows] *)
Definition report (errors : loc) : M unit :=
  es ← list_read errors ;
  (if (length es =? 0)%nat then
     notify O "Backup succeeded" (VStr "Hope you're having a nice day :)")
   else
     let subject := failure_subject (length es) in
     let msg := failure_body es in
     notify O subject (VStr msg)) ;;
  print "Reported backup errors".

(** the command line of one directory's snapshot *)
Definition restic_backup_cmd (dir : string) : list string :=
  (["restic"] ++ RESTIC_DEFAULT_ARGS)
  ++ ["backup"; dir; "--use-fs-snapshot"; "--tag"; "Windows"].

(** the subprocess [backup_windows_dir] starts for a directory of
    [BACKUP_DIRS] *)
Definition snapshot_of (backup_dir : string) : event :=
  Popen (restic_backup_cmd (path_join O (home O) backup_dir)) None
        (Some (add_restic_env (environ O))).

(** the mail [do_backup_windows] composes from the error list *)
Definition summary_mail (es : list pyval) : string :=
  if (length es =? 0)%nat
  then mail_text "Backup succeeded" "Hope you're having a nice day :)"
  else mail_text (failure_subject (length es)) (failure_body es).

(** the SMTP session that carries [message] *)
Definition session (message : string) (sent : bool) : event :=
  Smtp "smtp.gmail.com" 465 EMAIL_ADDRESS EMAIL_PASSWORD
    EMAIL_ADDRESS EMAIL_ADDRESS message sent.

End Phases.

(** the SMTP sessions of a trace that sent their message *)
Definition is_sent (e : event) : bool :=
  match e with Smtp _ _ _ _ _ _ _ sent => sent | _ => false end.

(** the list object the orchestrator creates first *)
Definition errors_loc : loc := 0.

(** ** Sample environments *)

Definition sample_path_join (a b : string) : string := a +:+ "\" +:+ b.

(** every external call succeeds and prints nothing *)
Definition calm : Oracle :=
  mkOracle (fun _ => Exited 0 "" "") (fun _ => None) (fun _ => None)
    (fun _ => false)
    (fun k => 7 * k + 3) ∅ "Tue Nov  3 10:23:00 2026" "C:\Users\alex"
    sample_path_join.

(** [git add] exits with 1, the second directory's snapshot cannot start *)
Definition stormy : Oracle :=
  mkOracle
    (fun k => if (k =? 0)%nat then Exited 1 "" " boom "
              else if (k =? 7)%nat then ProcRaised "[WinError 2] not found"
              else Exited 0 "up to date" "")
    (fun _ => None) (fun _ => None) (fun _ => false)
    (fun k => 7 * k + 3) {[ "WSLENV" := "TERM" ]} "Tue Nov  3 10:23:00 2026"
    "C:\Users\alex" sample_path_join.

(** the mail is accepted, but the server answers QUIT with an error, in
    every session *)
Definition quit_refused : Oracle :=
  mkOracle (fun _ => Exited 0 "" "") (fun _ => None)
    (fun _ => Some "(502, b'5.5.1 Unrecognized command')")
    (fun _ => true)
    (fun k => 7 * k + 3) ∅ "Tue Nov  3 10:23:00 2026" "C:\Users\alex"
    sample_path_join.

(** the notes directory is missing, Chocolatey exits with 1, and restic is
    gone when the integrity check starts; the texts of the two exceptions
    have white space around them *)
Definition ragged : Oracle :=
  mkOracle
    (fun k => if (k =? 2)%nat then Exited 1 " 0 packages " ""
              else if (k =? 13)%nat then ProcRaised "restic is gone  "
              else Exited 0 "" "")
    (fun _ => Some "  no notes directory")
    (fun _ => None) (fun _ => false)
    (fun k => 7 * k + 3) ∅ "Tue Nov  3 10:23:00 2026" "C:\Users\alex"
    sample_path_join.

(** as [calm], but the mail server refuses the first session *)
Definition offline : Oracle :=
  mkOracle (fun _ => Exited 0 "" "") (fun _ => None)
    (fun k => if (k =? 0)%nat then Some "Connection refused" else None)
    (fun _ => false)
    (fun k => 7 * k + 3) ∅ "Tue Nov  3 10:23:00 2026" "C:\Users\alex"
    sample_path_join.

(** the notes have not changed: [git commit] exits with 1 *)
Definition unchanged_notes : Oracle :=
  mkOracle
    (fun k => if (k =? 1)%nat then Exited 1 "nothing to commit" ""
              else Exited 0 "" "")
    (fun _ => None) (fun _ => None) (fun _ => false)
    (fun k => 7 * k + 3) ∅ "Tue Nov  3 10:23:00 2026" "C:\Users\alex"
    sample_path_join.

(** every subprocess exits with 3 *)
Definition hostile : Oracle :=
  mkOracle (fun _ => Exited 3 "" "fatal") (fun _ => None) (fun _ => None)
    (fun _ => false)
    (fun k => 5 * k + 1) ∅ "Tue Nov  3 10:23:00 2026" "C:\Users\alex"
    sample_path_join.

(** a task function that the user interrupts *)
Definition interrupted : M unit := raise (PyBaseException "KeyboardInterrupt").

(** a task function that fails with an error that is not a [ShellError] *)
Definition broken : M unit := raise (PyException "division by zero").

(** the entry the Task Wrapper appends for a caught exception *)
Definition entry_of (e : exn) : pyval :=
  match e with
  | ShellError msg => VStr msg
  | _ => VExc e
  end.

(** ** Vocabulary of the further properties *)

Section Outcomes.

Variable O : Oracle.

(** the two command lines of [backup_aws] *)
Definition ghidra_cmd : list string :=
  RCLONE_BASE ++
  [ "ghidra:/home/ghidra";
    path_join O (path_join O (RCLONE_DEST_PATH O) "aws") "ghidra";
    "--exclude"; ".dotfiles/**" ].

Definition twitchbot_cmd : list string :=
  RCLONE_BASE ++
  [ "twitchbot:/home/twitchbot";
    path_join O (path_join O (RCLONE_DEST_PATH O) "aws") "twitchbot";
    "--exclude"; ".dotfiles/**" ].

(** the command line of [backup_wsl] *)
Definition wsl_backup_cmd : list string :=
  [ "wsl.exe"; "--shell-type"; "none"; "/home/alex/.local/bin/restic";
    "backup"; "/home/alex"; "--tag"; "WSL" ] ++ RESTIC_DEFAULT_ARGS.

(** what the outcome of a checked command leaves in the error list when the
    command runs under the Task Wrapper: nothing after exit code zero, the
    [ShellError] message after another exit code, the exception itself when
    the subprocess could not run *)
Definition failure_entry (cmd : list string) (r : proc_outcome) : list pyval :=
  match r with
  | Exited rc out err =>
      if (rc =? 0)%Z then []
      else [VStr (shell_error_msg cmd rc (Py.strip out) (Py.strip err))]
  | ProcRaised text => [VExc (PyException text)]
  end.

(** the entries the snapshots of [dirs] leave, the first snapshot being the
    [k]-th subprocess of the run *)
Fixpoint snapshot_failures (k : nat) (dirs : list string) : list pyval :=
  match dirs with
  | [] => []
  | d :: dirs' =>
      failure_entry (restic_backup_cmd (path_join O (home O) d)) (proc_result O k)
      ++ snapshot_failures (S k) dirs'
  end.

End Outcomes.

(** the notes directory is missing *)
Definition no_notes : Oracle :=
  mkOracle (fun _ => Exited 0 "" "")
    (fun _ => Some "[WinError 3] The system cannot find the path specified")
    (fun _ => None) (fun _ => false)
    (fun k => 7 * k + 3) ∅ "Tue Nov  3 10:23:00 2026" "C:\Users\alex"
    sample_path_join.

(** [rclone] is not installed, everything else succeeds with some output *)
Definition no_rclone : Oracle :=
  mkOracle
    (fun k => if (k =? 2)%nat then ProcRaised "[WinError 2] rclone not found"
              else Exited 0 "  done  " "")
    (fun _ => None) (fun _ => None) (fun _ => false)
    (fun k => 3 * k + 2) {[ "RESTIC_PASSWORD" := "stale"; "PATH" := "C:\bin" ]}
    "Tue Nov  3 10:23:00 2026" "C:\Users\alex" sample_path_join.

(** how a checked [sh] of [cmd] ends, given what its subprocess does *)
Definition checked (cmd : list string) (r : proc_outcome) : Result unit :=
  match r with
  | Exited rc out err =>
      if (rc =? 0)%Z then Ok tt
      else Raise (ShellError (shell_error_msg cmd rc (Py.strip out) (Py.strip err)))
  | ProcRaised text => Raise (PyException text)
  end.

(** the subprocess has run and exited with code zero *)
Definition succeeded (r : proc_outcome) : bool :=
  match r with
  | Exited rc _ _ => (rc =? 0)%Z
  | ProcRaised _ => false
  end.

(** a draw of the random source that stays below its bound, for a list of
    [len] elements *)
Definition in_range_draw (len : nat) (e : event) : Prop :=
  match e with
  | Randbelow n j => j < n /\ n <= len
  | _ => False
  end.

(** [m] lets every list object grow by at most [n] entries *)
Definition adds {A : Type} (n : nat) (m : M A) : Prop :=
  forall (w : World) (l : loc) (es : list pyval),
    heap w !! l = Some es ->
    exists suf, heap (m w).2 !! l = Some (es ++ suf) /\ length suf <= n.

(** [git] is not installed *)
Definition no_git : Oracle :=
  mkOracle (fun _ => ProcRaised "[WinError 2] git not found")
    (fun _ => None) (fun _ => None) (fun _ => false)
    (fun k => 7 * k + 3) ∅ "Tue Nov  3 10:23:00 2026" "C:\Users\alex"
    sample_path_join.

(** a text whose first character, if any, is not white space *)
Definition starts_clean (s : string) : Prop :=
  match s with
  | "" => True
  | String c _ => Py.isspace c = false
  end.

(** * Verification *)

(** ** Traces *)

Lemma only_app (p : event -> bool) (tr1 tr2 : list event) :
  only p (tr1 ++ tr2) = only p tr1 ++ only p tr2.
Proof. unfold only. apply List.filter_app. Qed.

Lemma count_app (p : event -> bool) (tr1 tr2 : list event) :
  count p (tr1 ++ tr2) = count p tr1 + count p tr2.
Proof. unfold count. by rewrite only_app, length_app. Qed.

Lemma count_emit (p : event -> bool) (e : event) (w : World) :
  count p (trace (emit e w)) = count p (trace w) + (if p e then 1 else 0).
Proof. simpl. rewrite count_app. unfold count, only. simpl. by destruct (p e). Qed.

(** ** The monad *)

Lemma bind_run {A B : Type} (m : M A) (f : A -> M B) (w : World) :
  (m ≫= f) w =
  match m w with
  | (Ok a, w') => f a w'
  | (Raise e, w') => (Raise e, w')
  end.
Proof. reflexivity. Qed.

Lemma bind_ok {A B : Type} (m : M A) (f : A -> M B) (w w' : World) (a : A) :
  m w = (Ok a, w') -> (m ≫= f) w = f a w'.
Proof. intros H. by rewrite bind_run, H. Qed.

Lemma extends_refl (w : World) : extends w w.
Proof.
  split.
  - exists []. by rewrite app_nil_r.
  - intros l es H. exists []. by rewrite app_nil_r.
Qed.

Lemma extends_trans (w1 w2 w3 : World) :
  extends w1 w2 -> extends w2 w3 -> extends w1 w3.
Proof.
  intros [[t1 [E1 S1]] H1] [[t2 [E2 S2]] H2]. split.
  - exists (t1 ++ t2). split.
    + by rewrite E2, E1, app_assoc.
    + by rewrite only_app, S1, S2.
  - intros l es Hl. destruct (H1 _ _ Hl) as [s1 Hs1].
    destruct (H2 _ _ Hs1) as [s2 Hs2]. exists (s1 ++ s2).
    by rewrite app_assoc.
Qed.

Lemma extends_emit (e : event) (w : World) :
  is_smtp e = false -> extends w (emit e w).
Proof.
  intros He. split.
  - exists [e]. split; [done|]. unfold only. simpl. by rewrite He.
  - intros l es H. exists []. by rewrite app_nil_r.
Qed.

Lemma task_ret {A : Type} (a : A) : task (mret a : M A).
Proof. intros w. split; [apply extends_refl | done]. Qed.

Lemma task_raise {A : Type} (e : exn) :
  is_Exception e = true -> task (raise e : M A).
Proof. intros He w. split; [apply extends_refl | done]. Qed.

Lemma task_bind {A B : Type} (m : M A) (f : A -> M B) :
  task m -> (forall a, task (f a)) -> task (m ≫= f).
Proof.
  intros Hm Hf w. rewrite bind_run. specialize (Hm w).
  destruct (m w) as [[a|e] w1]; simpl in Hm; destruct Hm as [Hext Hc].
  - destruct (Hf a w1) as [Hext' Hc']. split; [|done].
    by eapply extends_trans.
  - done.
Qed.

Lemma task_print (line : string) : task (print line).
Proof. intros w. split; [by apply extends_emit | done]. Qed.

Lemma task_for_each {A : Type} (l : list A) (body : A -> M unit) :
  (forall x, task (body x)) -> task (for_each l body).
Proof.
  intros Hb. induction l as [|x l IH]; simpl.
  - apply task_ret.
  - apply task_bind; [apply Hb | intros _; apply IH].
Qed.

Lemma lookup_alter_app (h : list (list pyval)) (l k : loc) (v : pyval)
    (es : list pyval) :
  h !! k = Some es ->
  exists suf, alter (fun es => es ++ [v]) l h !! k = Some (es ++ suf).
Proof.
  intros Hk. destruct (decide (l = k)) as [->|Hne].
  - exists [v]. by rewrite list_lookup_alter_eq, Hk.
  - exists []. by rewrite list_lookup_alter_ne, app_nil_r.
Qed.

Lemma task_list_append (l : loc) (v : pyval) : task (list_append l v).
Proof.
  intros w. split; [|done]. split.
  - exists []. simpl. by rewrite app_nil_r.
  - intros k es Hk. simpl. by apply lookup_alter_app.
Qed.

Section Tasks.

Variable O : Oracle.

Lemma task_popen_communicate cmd stdin_str env :
  task (popen_communicate O cmd stdin_str env).
Proof.
  intros w. unfold popen_communicate.
  destruct (proc_result O _); simpl; (split; [by apply extends_emit | done]).
Qed.

Lemma task_chdir path : task (chdir O path).
Proof.
  intros w. unfold chdir.
  destruct (chdir_result O _); simpl; (split; [by apply extends_emit | done]).
Qed.

Lemma task_randbelow n : task (randbelow O n).
Proof. intros w. split; [by apply extends_emit | done]. Qed.

Lemma task_sh cmd check stdin_str env : task (sh O cmd check stdin_str env).
Proof.
  unfold sh. apply task_bind; [apply task_print | intros _].
  apply task_bind; [apply task_popen_communicate | intros [[rc out] err]].
  destruct (check && negb (rc =? 0)%Z).
  - apply task_bind; [apply task_print | intros _]. by apply task_raise.
  - apply task_bind; [|intros _; apply task_ret].
    destruct (_ || _); [apply task_print | apply task_ret].
Qed.

(** The Task Wrapper turns a task into a step that always returns. *)
Lemma try_task_returns (task_func : M unit) (error_list : loc) (w : World) :
  catchable (task_func w).1 ->
  exists w', try_task task_func error_list w = (Ok tt, w').
Proof.
  unfold try_task. destruct (task_func w) as [[[]|e] w1]; simpl.
  - eauto.
  - intros He. destruct e; simpl in *; try done; eauto.
Qed.

Lemma task_try_task (task_func : M unit) (error_list : loc) :
  task task_func -> task (try_task task_func error_list).
Proof.
  intros Ht w. destruct (Ht w) as [Hext Hc]. unfold try_task.
  destruct (task_func w) as [[[]|e] w1]; simpl in *; [done|].
  destruct e; simpl in *; try done.
  - destruct (task_list_append error_list (VStr msg) w1) as [H1 _].
    split; [|done]. by eapply extends_trans.
  - destruct (task_list_append error_list (VExc (PyException text)) w1)
      as [H1 _].
    split; [|done]. by eapply extends_trans.
Qed.

Lemma task_shuffle_from {A : Type} (i : nat) (x : list A) :
  task (shuffle_from O i x).
Proof.
  revert x. induction i as [|i IH]; intros x; simpl.
  - apply task_ret.
  - apply task_bind; [apply task_randbelow | intros j].
    destruct (swap x (S i) j); [apply IH | by apply task_raise].
Qed.

Local Ltac task_steps :=
  repeat first
    [ apply task_print | apply task_sh | apply task_chdir | apply task_ret
    | apply task_bind; [|intros ?] ].

Lemma task_backup_windows_dir dir : task (backup_windows_dir O dir).
Proof. unfold backup_windows_dir. task_steps. Qed.

Lemma task_backup_aws : task (backup_aws O).
Proof. unfold backup_aws. task_steps. Qed.

Lemma task_commit_notes : task (commit_notes O).
Proof. unfold commit_notes. task_steps. Qed.

Lemma task_choco_upgrade : task (choco_upgrade O).
Proof. unfold choco_upgrade. task_steps. Qed.

Lemma task_wsl_upgrade : task (wsl_upgrade O).
Proof. unfold wsl_upgrade. task_steps. Qed.

Lemma task_backup_c_drive errors : task (backup_c_drive O errors).
Proof.
  unfold backup_c_drive.
  apply task_bind; [apply task_shuffle_from | intros shuffled_dirs].
  apply task_bind; [|intros _; apply task_print].
  apply task_for_each. intros backup_dir.
  apply task_try_task, task_backup_windows_dir.
Qed.

Lemma task_backup_wsl : task (backup_wsl O).
Proof. unfold backup_wsl. task_steps. Qed.

Lemma task_check_restic_integrity : task (check_restic_integrity O).
Proof. unfold check_restic_integrity. task_steps. Qed.

End Tasks.

(** ** Runs of the orchestrator *)

Section Runs.

Variable O : Oracle.

Lemma sh_run cmd check stdin_str env (w : World) :
  sh O cmd check stdin_str env w =
  let w1 := emit (Popen cmd stdin_str env)
              (emit (Print ("Running command: " +:+ Py.repr_list cmd)) w) in
  match proc_result O (count is_popen (trace w)) with
  | Exited rc out err =>
      let stdout := Py.strip out in
      let stderr := Py.strip err in
      if check && negb (rc =? 0)%Z then
        let msg := shell_error_msg cmd rc stdout stderr in
        (Raise (ShellError msg), emit (Print msg) w1)
      else
        (Ok stdout,
         if (0 <? String.length stdout)%nat || (0 <? String.length stderr)%nat
         then emit (Print ("[script] Stdout:" +:+ Py.nl +:+ stdout +:+ Py.nl +:+
                           "[script] Stderr:" +:+ Py.nl +:+ stderr)) w1
         else w1)
  | ProcRaised text => (Raise (PyException text), w1)
  end.
Proof.
  unfold sh, print, popen_communicate. rewrite !bind_run.
  rewrite count_emit. simpl. rewrite Nat.add_0_r.
  destruct (proc_result O _) as [rc out err|text]; simpl; [|done].
  destruct (check && negb (rc =? 0)%Z); simpl; [done|].
  rewrite bind_run. by destruct (_ || _).
Qed.

Lemma sh_popens cmd check stdin_str env (w : World) :
  only is_popen (trace (sh O cmd check stdin_str env w).2) =
  only is_popen (trace w) ++ [Popen cmd stdin_str env].
Proof.
  rewrite sh_run. simpl.
  destruct (proc_result O _) as [rc out err|text]; simpl.
  - destruct (check && negb (rc =? 0)%Z); simpl.
    + rewrite !only_app. simpl. by rewrite !app_nil_r.
    + destruct (_ || _); simpl; rewrite !only_app; simpl;
        by rewrite !app_nil_r.
  - rewrite !only_app. simpl. by rewrite !app_nil_r.
Qed.

Lemma sh_heap cmd check stdin_str env (w : World) :
  heap (sh O cmd check stdin_str env w).2 = heap w.
Proof.
  rewrite sh_run. simpl.
  destruct (proc_result O _) as [rc out err|text]; simpl; [|done].
  destruct (check && negb (rc =? 0)%Z); simpl; [done|].
  by destruct (_ || _).
Qed.

Lemma try_task_trace (task_func : M unit) (error_list : loc) (w : World) :
  trace (try_task task_func error_list w).2 = trace (task_func w).2.
Proof.
  unfold try_task. destruct (task_func w) as [[[]|e] w1]; simpl; [done|].
  destruct e; simpl; done.
Qed.

Lemma for_each_try_task (l : list (M unit)) (errors : loc) :
  (forall t, t ∈ l -> task t) ->
  forall w, exists w',
    for_each l (fun t => try_task t errors) w = (Ok tt, w') /\ extends w w'.
Proof.
  induction l as [|t l IH]; intros Hl w; simpl.
  - exists w. split; [done | apply extends_refl].
  - assert (Ht : task t) by (apply Hl; left).
    destruct (try_task_returns t errors w) as [w1 E1]; [apply Ht|].
    destruct (task_try_task t errors Ht w) as [X1 _]. rewrite E1 in X1.
    destruct (IH (fun t' H => Hl t' (list_elem_of_further _ _ _ H)) w1)
      as [w2 [E2 X2]].
    exists w2. split.
    + by rewrite (bind_ok _ _ _ _ _ E1).
    + by eapply extends_trans.
Qed.

Lemma catalog_tasks (errors : loc) (t : M unit) :
  t ∈ catalog O errors -> task t.
Proof.
  unfold catalog. rewrite !elem_of_cons, elem_of_nil.
  intros [->|[->|[->|[->|[->|[->|[->|[]]]]]]]];
    auto using task_commit_notes, task_backup_aws, task_choco_upgrade,
      task_wsl_upgrade, task_backup_c_drive, task_backup_wsl,
      task_check_restic_integrity.
Qed.

Lemma run_tasks_ok (k : nat) (errors : loc) (w : World) :
  exists w', run_tasks O k errors w = (Ok tt, w') /\ extends w w'.
Proof.
  apply for_each_try_task. intros t Ht. apply (catalog_tasks errors).
  by apply (subseteq_take k).
Qed.

Lemma do_backup_windows_phases (w : World) :
  do_backup_windows O w =
  (errors ← new_list ; run_tasks O 7 errors ;; report O errors) w.
Proof.
  unfold do_backup_windows, run_tasks, report, catalog. simpl.
  cbv [mbind M_bind mret M_ret new_list].
  repeat match goal with
    | |- context [try_task ?t ?l ?w0] =>
        destruct (try_task t l w0) as [[[]|?] ?]; try reflexivity
    end.
Qed.

Lemma report_run (errors : loc) (w : World) :
  report O errors w =
  let message := summary_mail (default [] (heap w !! errors)) in
  let k := count is_smtp (trace w) in
  match smtp_result O k with
  | None =>
      (Ok tt, emit (Print "Reported backup errors") (emit (session message true) w))
  | Some text =>
      (Raise (PyException text),
       emit (session message (delivered_before_raise O k)) w)
  end.
Proof.
  unfold report, list_read, summary_mail. rewrite bind_run. simpl.
  rewrite bind_run.
  destruct (length (default [] (heap w !! errors)) =? 0)%nat;
    unfold notify, smtp_session; simpl;
    by destruct (smtp_result O _).
Qed.

(** The whole run, read off the oracle: the tasks end in a world [w] that
    has sent no mail and holds the error list [es]; then the summary is
    sent, and once more by the top-level handler if that fails. *)
Lemma main_run :
  exists (w : World) (es : list pyval),
    only is_smtp (trace w) = [] /\
    heap w !! errors_loc = Some es /\
    main O initial =
    match smtp_result O 0 with
    | None =>
        (Ok tt, emit (Print "Reported backup errors")
                  (emit (session (summary_mail es) true) w))
    | Some text =>
        let w1 :=
          emit (session (summary_mail es) (delivered_before_raise O 0)) w in
        let last := mail_text "Backup failed: 1 error" text in
        match smtp_result O 1 with
        | None => (Ok tt, emit (session last true) w1)
        | Some text' =>
            (Raise (PyException text'),
             emit (session last (delivered_before_raise O 1)) w1)
        end
    end.
Proof.
  destruct (run_tasks_ok 7 errors_loc (mkWorld [] [[]])) as [w [Erun Hext]].
  destruct Hext as [[tr [Etr Hsmtp]] Hheap]. simpl in Etr.
  destruct (Hheap errors_loc [] eq_refl) as [es Hes]. simpl in Hes.
  exists w, es. split; [by rewrite Etr|]. split; [done|].
  assert (Hc : count is_smtp (trace w) = 0).
  { unfold count. by rewrite Etr, Hsmtp. }
  unfold main. rewrite do_backup_windows_phases.
  rewrite bind_run. simpl. unfold errors_loc in *.
  rewrite (bind_ok _ _ _ _ _ Erun), report_run, Hc, Hes. simpl.
  destruct (smtp_result O 0) as [text|]; simpl; [|done].
  unfold notify, smtp_session. rewrite count_emit, Hc. simpl.
  by destruct (smtp_result O 1).
Qed.

End Runs.

(** * The notification *)

Lemma no_smtp_no_sent (tr : list event) :
  only is_smtp tr = [] -> count is_sent tr = 0.
Proof.
  unfold count, only. induction tr as [|e tr IH]; simpl; [done|].
  destruct e; simpl; try done. 
Qed.

(** C1, as the code sends its mail. A run makes exactly one notification
    attempt when that attempt returns, and its message is delivered,
    however many tasks failed.  When the first attempt raises there are
    exactly two attempts, the second one made by the top-level handler with
    its fixed subject and the error of the first attempt as its body.  An
    attempt that returns has delivered its message; an attempt that raises
    has delivered it when the error came at the end of the SMTP session,
    after [sendmail], and not otherwise: the messages delivered are counted
    accordingly, between none and two. *)
Theorem notification_attempts (O : Oracle) :
  let tr := trace (main O initial).2 in
  let delivers k :=
    match smtp_result O k with
    | None => true
    | Some _ => delivered_before_raise O k
    end in
  match smtp_result O 0 with
  | None => count is_smtp tr = 1 /\ count is_sent tr = 1
  | Some text =>
      count is_smtp tr = 2 /\
      only is_smtp tr !! 1 =
        Some (Smtp "smtp.gmail.com" 465 EMAIL_ADDRESS EMAIL_PASSWORD
                EMAIL_ADDRESS EMAIL_ADDRESS
                ("Subject: Backup failed: 1 error" +:+
                 String "010"%char (String "010"%char text))
                (delivers 1)) /\
      count is_sent tr =
        (if delivered_before_raise O 0 then 1 else 0) +
        (if delivers 1 then 1 else 0)
  end.
Proof.
  destruct (main_run O) as (w & es & Hs & _ & E). simpl. rewrite E.
  assert (Hc : count is_smtp (trace w) = 0) by (unfold count; by rewrite Hs).
  pose proof (no_smtp_no_sent _ Hs) as Hd.
  destruct (smtp_result O 0) as [text|]; simpl.
  - destruct (smtp_result O 1) as [text'|]; simpl;
      rewrite !count_app, !only_app, Hc, Hd, Hs; simpl;
      unfold count; simpl;
      destruct (delivered_before_raise O 0);
      try destruct (delivered_before_raise O 1); done.
  - rewrite !count_app, Hc, Hd. simpl. done.
Qed.

Lemma notification_attempts_witness :
  count is_smtp (trace (main offline initial).2) = 2 /\
  only is_smtp (trace (main offline initial).2) !! 1 =
    Some (Smtp "smtp.gmail.com" 465 "me@example.com" "*******************"
            "me@example.com" "me@example.com"
            "Subject: Backup failed: 1 error

Connection refused" true) /\
  count is_sent (trace (main offline initial).2) = 1.
Proof.
  pose proof (notification_attempts offline) as H. hnf in H. exact H.
Defined.

(** Two messages are delivered in one run, although both notification
    attempts fail, when the server has accepted each message and then
    answers QUIT with an error. *)
Lemma two_notifications_delivered :
  (main quit_refused initial).1 =
    Raise (PyException "(502, b'5.5.1 Unrecognized command')") /\
  count is_smtp (trace (main quit_refused initial).2) = 2 /\
  count is_sent (trace (main quit_refused initial).2) = 2 /\
  count is_sent (trace (main quit_refused initial).2) <> 1 /\
  count is_sent (trace (main quit_refused initial).2) <> 0.
Proof. vm_compute. repeat split; discriminate. Qed.

Lemma join_no_separator (l : list string) :
  Py.join "" l = foldr (fun s rest => s +:+ rest) "" l.
Proof.
  induction l as [|s l IH]; [done|].
  destruct l as [|s' l]; simpl in *.
  - induction s as [|c s IHs]; [done|].
    change (String c s = String c (s +:+ "")). by rewrite <- IHs.
  - by rewrite IH.
Qed.

(** The first SMTP session of a run carries the summary of the error list
    the run ends with. *)
Lemma first_session (O : Oracle) :
  exists (es : list pyval) (sent : bool),
    heap (main O initial).2 !! errors_loc = Some es /\
    only is_smtp (trace (main O initial).2) !! 0 =
      Some (session (summary_mail es) sent).
Proof.
  destruct (main_run O) as (w & es & Hs & Hes & E). exists es. rewrite E.
  destruct (smtp_result O 0) as [text|]; simpl.
  - destruct (smtp_result O 1) as [text'|]; simpl; eexists;
      rewrite !only_app, Hs; simpl; done.
  - eexists. rewrite !only_app, Hs. simpl. done.
Qed.

(** C2. In a run that captured N >= 1 failures, the notification has the
    subject "Backup failed! 1 error" when N = 1 and "Backup failed! N errors"
    otherwise, and its body is the concatenation of the texts of the
    captured failures, in their order, with the white space at both ends of
    the concatenation removed. *)
Theorem failure_notification (O : Oracle) (es : list pyval) :
  heap (main O initial).2 !! errors_loc = Some es ->
  1 <= length es ->
  let N := length es in
  let subject :=
    if (N =? 1)%nat then "Backup failed! 1 error"
    else "Backup failed! " +:+ Py.str_nat N +:+ " errors" in
  let body := Py.strip (foldr (fun e rest => py_str e +:+ rest) "" es) in
  exists sent : bool,
    only is_smtp (trace (main O initial).2) !! 0 =
      Some (Smtp "smtp.gmail.com" 465 EMAIL_ADDRESS EMAIL_PASSWORD
              EMAIL_ADDRESS EMAIL_ADDRESS
              ("Subject: " +:+ subject +:+
               String "010"%char (String "010"%char body))
              sent).
Proof.
  intros Hes HN. destruct (first_session O) as (es' & sent & Hes' & Hfirst).
  rewrite Hes in Hes'. injection Hes' as <-. simpl. exists sent. rewrite Hfirst.
  unfold session, summary_mail, failure_subject, failure_body, mail_text.
  rewrite join_no_separator, foldr_fmap.
  destruct (length es) as [|[|n]] eqn:El; [lia| |]; done.
Qed.

Lemma failure_notification_witness :
  heap (main ragged initial).2 !! errors_loc =
    Some [ VExc (PyException "  no notes directory");
           VStr "[script] Failed to run command: ['choco', 'upgrade', 'all']
[script] Return code: 1

[script] Stdout:
0 packages
[script] Stderr:
";
           VExc (PyException "restic is gone  ") ] /\
  exists sent : bool,
    only is_smtp (trace (main ragged initial).2) !! 0 =
      Some (Smtp "smtp.gmail.com" 465 "me@example.com" "*******************"
              "me@example.com" "me@example.com"
              "Subject: Backup failed! 3 errors

no notes directory[script] Failed to run command: ['choco', 'upgrade', 'all']
[script] Return code: 1

[script] Stdout:
0 packages
[script] Stderr:
restic is gone" sent).
Proof.
  assert (H : heap (main ragged initial).2 !! errors_loc =
    Some [ VExc (PyException "  no notes directory");
           VStr (shell_error_msg ["choco"; "upgrade"; "all"] 1 "0 packages" "");
           VExc (PyException "restic is gone  ") ])
    by (vm_compute; reflexivity).
  split; [exact H|].
  destruct (failure_notification ragged _ H) as [sent Hsent]; [simpl; lia|].
  exists sent. exact Hsent.
Defined.

(** C9. In a run whose error list is empty after the tasks, the notification
    has the fixed success subject and the fixed success body. *)
Theorem success_notification (O : Oracle) :
  heap (main O initial).2 !! errors_loc = Some [] ->
  exists sent : bool,
    only is_smtp (trace (main O initial).2) !! 0 =
      Some (Smtp "smtp.gmail.com" 465 EMAIL_ADDRESS EMAIL_PASSWORD
              EMAIL_ADDRESS EMAIL_ADDRESS
              "Subject: Backup succeeded

Hope you're having a nice day :)" sent).
Proof.
  intros Hes. destruct (first_session O) as (es' & sent & Hes' & Hfirst).
  rewrite Hes in Hes'. injection Hes' as <-. exists sent. by rewrite Hfirst.
Qed.

Lemma success_notification_witness :
  heap (main calm initial).2 !! errors_loc = Some [] /\
  exists sent : bool,
    only is_smtp (trace (main calm initial).2) !! 0 =
      Some (Smtp "smtp.gmail.com" 465 "me@example.com" "*******************"
              "me@example.com" "me@example.com"
              "Subject: Backup succeeded

Hope you're having a nice day :)" sent).
Proof.
  assert (H : heap (main calm initial).2 !! errors_loc = Some [])
    by (vm_compute; reflexivity).
  split; [exact H|]. exact (success_notification calm H).
Defined.

(** * The error list *)

Lemma for_each_app {A : Type} (l1 l2 : list A) (body : A -> M unit) (w : World) :
  for_each (l1 ++ l2) body w = (for_each l1 body ;; for_each l2 body) w.
Proof.
  revert w. induction l1 as [|x l1 IH]; intros w; simpl; [done|].
  rewrite !bind_run. destruct (body x w) as [[[]|e] w1]; [|done].
  by rewrite IH, bind_run.
Qed.

(** C8. The error list only grows during a run: the list as it is after any
    number of the catalog's tasks is still there, entry for entry and in the
    same order, at the front of the list after any later task, up to the
    notification decision; what a task does to it is to append. *)
Theorem errors_only_grow (O : Oracle) (errors : loc) (w : World) (k j : nat)
    (es : list pyval) :
  k <= j ->
  heap (run_tasks O k errors w).2 !! errors = Some es ->
  exists suf, heap (run_tasks O j errors w).2 !! errors = Some (es ++ suf).
Proof.
  intros Hkj Hes. unfold run_tasks in *.
  set (step := fun t : M unit => try_task t errors) in *.
  assert (Hsplit : take j (catalog O errors) =
                   take k (catalog O errors) ++ drop k (take j (catalog O errors))).
  { rewrite <- (take_drop k (take j (catalog O errors))) at 1.
    by rewrite take_take, Nat.min_l. }
  rewrite Hsplit, for_each_app.
  destruct (run_tasks_ok O k errors w) as [w1 [E1 _]]. unfold run_tasks in E1.
  fold step in E1. rewrite E1 in Hes. simpl in Hes.
  rewrite (bind_ok _ _ _ _ _ E1).
  destruct (for_each_try_task (drop k (take j (catalog O errors))) errors)
    with (w := w1) as [w2 [E2 [_ Hheap]]].
  - intros t Ht. apply (catalog_tasks O errors).
    by apply (subseteq_take j), (subseteq_drop k).
  - fold step in E2. rewrite E2. simpl. by apply Hheap.
Qed.

Lemma errors_only_grow_witness :
  exists suf,
    heap (run_tasks stormy 7 errors_loc (mkWorld [] [[]])).2 !! errors_loc =
    Some ([VStr (shell_error_msg ["git"; "add"; "."] 1 "" "boom")] ++ suf).
Proof.
  apply (errors_only_grow stormy errors_loc (mkWorld [] [[]]) 1 7).
  - lia.
  - vm_compute. reflexivity.
Defined.

(** * The Task Wrapper *)

(** C3, for what [except Exception] handles. A task function that returns or raises an
    instance of [Exception] makes [try_task] return normally, so that what
    follows runs: a [ShellError] has its message appended to the list as a
    text, any other instance of [Exception] is appended as the exception
    object, whose text [str] gives when the notification body is built.
    (An exception outside [Exception] is not caught.) *)
Theorem try_task_catches (task_func : M unit) (error_list : loc) (w : World) :
  catchable (task_func w).1 ->
  exists w',
    try_task task_func error_list w = (Ok tt, w') /\
    trace w' = trace (task_func w).2 /\
    (forall l, heap w' !! l =
       match (task_func w).1 with
       | Raise e =>
           if decide (error_list = l)
           then (fun es => es ++ [entry_of e]) <$> heap (task_func w).2 !! error_list
           else heap (task_func w).2 !! l
       | Ok _ => heap (task_func w).2 !! l
       end) /\
    (forall next : M unit, (try_task task_func error_list ;; next) w = next w').
Proof.
  intros Hc.
  assert (Hnext : forall w', try_task task_func error_list w = (Ok tt, w') ->
            forall next : M unit,
              (try_task task_func error_list ;; next) w = next w').
  { intros w' E next. by rewrite bind_run, E. }
  revert Hnext. unfold try_task.
  destruct (task_func w) as [[[]|e] w1]; simpl in *; intros Hnext.
  - exists w1. repeat split; auto.
  - destruct e; simpl in *; try done.
    + eexists. split; [reflexivity|]. repeat split; auto.
      intros l. apply list_lookup_alter.
    + eexists. split; [reflexivity|]. repeat split; auto.
      intros l. apply list_lookup_alter.
Qed.

Lemma try_task_catches_witness :
  let w := mkWorld [] [[]] in
  catchable (commit_notes stormy w).1 /\
  exists w',
    try_task (commit_notes stormy) errors_loc w = (Ok tt, w') /\
    heap w' !! errors_loc =
      Some [VStr (shell_error_msg ["git"; "add"; "."] 1 "" "boom")].
Proof.
  intros w.
  assert (Hc : catchable (commit_notes stormy w).1) by (vm_compute; reflexivity).
  split; [exact Hc|].
  destruct (try_task_catches (commit_notes stormy) errors_loc w Hc)
    as (w' & E & _ & Hheap & _).
  exists w'. split; [exact E|]. rewrite Hheap. vm_compute. reflexivity.
Defined.

(** The wrapper is not total, and an entry is not always a text: an
    exception that is not an instance of [Exception] passes through the
    wrapper, and a caught exception that is not a [ShellError] enters the
    list as an object. *)
Lemma try_task_reraises :
  let w := mkWorld [] [[]] in
  try_task interrupted errors_loc w =
    (Raise (PyBaseException "KeyboardInterrupt"), w) /\
  ~ (exists w', try_task interrupted errors_loc w = (Ok tt, w')) /\
  heap (try_task broken errors_loc w).2 !! errors_loc =
    Some [VExc (PyException "division by zero")] /\
  (forall text : string,
     heap (try_task broken errors_loc w).2 !! errors_loc <> Some [VStr text]).
Proof.
  intros w. repeat split.
  - intros [w' E]. discriminate E.
  - intros text E. discriminate E.
Qed.

(** What [except Exception] does not handle leaves the wrapper as it
    came, and the list is not touched. *)
Lemma try_task_passes_on (task_func : M unit) (error_list : loc) (w w1 : World)
    (e : exn) :
  task_func w = (Raise e, w1) ->
  is_Exception e = false ->
  try_task task_func error_list w = (Raise e, w1).
Proof. intros E He. unfold try_task. rewrite E. by destruct e. Qed.

(** * The Command Runner *)

(** C4. When the subprocess exits with code zero, [sh] returns its standard
    output without the white space around it; when it exits with another
    code and [check] is set, [sh] raises a [ShellError] whose message holds
    the command, the exit code and both output streams (each without the
    white space around it). *)
Theorem sh_contract (O : Oracle) (cmd : list string) (check : bool)
    (stdin_str : option string) (env : option (gmap string string))
    (w : World) (rc : Z) (out err : string) :
  proc_result O (count is_popen (trace w)) = Exited rc out err ->
  (sh O cmd check stdin_str env w).1 =
    if (rc =? 0)%Z then Ok (Py.strip out)
    else if check then
      Raise (ShellError
        ("[script] Failed to run command: " +:+ Py.repr_list cmd +:+ Py.nl +:+
         "[script] Return code: " +:+ Py.str_int rc +:+ Py.nl +:+ Py.nl +:+
         "[script] Stdout:" +:+ Py.nl +:+ Py.strip out +:+ Py.nl +:+
         "[script] Stderr:" +:+ Py.nl +:+ Py.strip err))
    else Ok (Py.strip out).
Proof.
  intros Hp. rewrite sh_run, Hp. simpl.
  destruct (rc =? 0)%Z, check; simpl; done.
Qed.

Lemma sh_contract_witness :
  proc_result stormy (count is_popen (trace initial)) = Exited 1 "" " boom " /\
  (sh stormy ["git"; "add"; "."] true None None initial).1 =
    Raise (ShellError
      ("[script] Failed to run command: ['git', 'add', '.']" +:+ Py.nl +:+
       "[script] Return code: 1" +:+ Py.nl +:+ Py.nl +:+
       "[script] Stdout:" +:+ Py.nl +:+ "" +:+ Py.nl +:+
       "[script] Stderr:" +:+ Py.nl +:+ "boom")).
Proof.
  assert (Hp : proc_result stormy (count is_popen (trace initial)) =
               Exited 1 "" " boom ") by reflexivity.
  split; [exact Hp|].
  exact (sh_contract stormy ["git"; "add"; "."] true None None initial _ _ _ Hp).
Defined.

(** * The commit notes task *)

Lemma sh_count_popen (O : Oracle) cmd check stdin_str env (w : World) :
  count is_popen (trace (sh O cmd check stdin_str env w).2) =
  S (count is_popen (trace w)).
Proof. unfold count. rewrite sh_popens, length_app. simpl. lia. Qed.

(** C5. With the notes directory entered, what the wrapped task adds to the
    error list is decided by the two [git] steps: a staging step that exits
    with a code other than zero adds its [ShellError] message; once staging
    has exited with zero, a commit step that exits adds nothing, whatever
    its exit code. *)
Theorem commit_notes_errors (O : Oracle) (errors : loc) (w : World)
    (es : list pyval) :
  heap w !! errors = Some es ->
  chdir_result O (count is_chdir (trace w)) = None ->
  let n := count is_popen (trace w) in
  heap (try_task (commit_notes O) errors w).2 !! errors =
    Some match proc_result O n with
         | Exited rc out err =>
             if (rc =? 0)%Z then
               match proc_result O (S n) with
               | Exited _ _ _ => es
               | ProcRaised text => es ++ [VExc (PyException text)]
               end
             else
               es ++ [VStr (shell_error_msg ["git"; "add"; "."] rc
                              (Py.strip out) (Py.strip err))]
         | ProcRaised text => es ++ [VExc (PyException text)]
         end.
Proof.
  intros Hes Hch n. unfold try_task, commit_notes.
  rewrite bind_run. unfold chdir at 1. rewrite Hch.
  set (w0 := emit (Chdir _) w).
  assert (Hn0 : count is_popen (trace w0) = n).
  { unfold w0. rewrite count_emit. simpl. apply Nat.add_0_r. }
  assert (Hh0 : heap w0 = heap w) by done.
  clearbody w0. rewrite bind_run.
  pose proof (sh_run O ["git"; "add"; "."] true None None w0) as R1.
  pose proof (sh_heap O ["git"; "add"; "."] true None None w0) as H1.
  pose proof (sh_count_popen O ["git"; "add"; "."] true None None w0) as C1.
  destruct (sh O ["git"; "add"; "."] true None None w0) as [r1 w1].
  simpl in H1, C1. rewrite Hn0 in R1, C1. rewrite Hh0 in H1.
  destruct (proc_result O n) as [rc out err|text].
  - simpl in R1. destruct (rc =? 0)%Z; simpl in R1.
    + injection R1 as -> _. rewrite bind_run.
      set (commit := sh O _ false None None).
      pose proof (sh_run O ["git"; "commit"; "-m"; "Update " +:+ ctime O]
                    false None None w1) as R2.
      pose proof (sh_heap O ["git"; "commit"; "-m"; "Update " +:+ ctime O]
                    false None None w1) as H2.
      fold commit in R2, H2. destruct (commit w1) as [r2 w2].
      simpl in H2. rewrite C1 in R2.
      destruct (proc_result O (S n)) as [rc' out' err'|text'].
      * simpl in R2. injection R2 as -> _. simpl. by rewrite H2, H1.
      * injection R2 as -> _. simpl.
        by rewrite list_lookup_alter_eq, H2, H1, Hes.
    + injection R1 as -> _. simpl.
      by rewrite list_lookup_alter_eq, H1, Hes.
  - injection R1 as -> _. simpl.
    by rewrite list_lookup_alter_eq, H1, Hes.
Qed.

Lemma commit_notes_errors_witness :
  let w := mkWorld [] [[]] in
  proc_result unchanged_notes 1 = Exited 1 "nothing to commit" "" /\
  heap (try_task (commit_notes unchanged_notes) errors_loc w).2 !! errors_loc =
    Some [].
Proof.
  intros w. split; [reflexivity|].
  apply (commit_notes_errors unchanged_notes errors_loc w []); reflexivity.
Defined.

(** * The variable-sharing allowlist *)

Lemma append_assoc (a b c : string) : (a +:+ b) +:+ c = a +:+ (b +:+ c).
Proof.
  induction a as [|x a IH]; [done|].
  change (String x ((a +:+ b) +:+ c) = String x (a +:+ (b +:+ c))).
  by rewrite IH.
Qed.

Lemma gen_wslenv_eq (env : gmap string string) :
  gen_wslenv env =
  default "" (env !! "WSLENV") +:+
  ":RESTIC_REPOSITORY:AWS_ACCESS_KEY_ID:AWS_SECRET_ACCESS_KEY:RESTIC_PASSWORD".
Proof.
  unfold gen_wslenv. cbn [foldl RESTIC_ENV_VARS fst default].
  destruct (env !! "WSLENV") as [old|]; [|done].
  by rewrite !append_assoc.
Qed.

Lemma add_restic_env_wslenv (env : gmap string string) :
  add_restic_env env !! "WSLENV" = env !! "WSLENV".
Proof. unfold add_restic_env. simpl. by rewrite !lookup_insert_ne. Qed.

(** C10. The environment [backup_wsl] gives the subprocess has, as WSLENV,
    the inherited value (the empty string when the variable was unset)
    followed by ":" and the name, for each of the four variables of
    [RESTIC_ENV_VARS] in their order; when WSLENV was unset the value
    starts with a colon. *)
Theorem wslenv_allowlist (O : Oracle) (w : World) :
  exists env : gmap string string,
    only is_popen (trace (backup_wsl O w).2) =
      only is_popen (trace w) ++
      [Popen ([ "wsl.exe"; "--shell-type"; "none";
                "/home/alex/.local/bin/restic"; "backup"; "/home/alex";
                "--tag"; "WSL" ] ++ RESTIC_DEFAULT_ARGS) None (Some env)] /\
    env !! "WSLENV" =
      Some (default "" (environ O !! "WSLENV") +:+
            Py.join "" (map (fun vv => ":" +:+ vv.1) RESTIC_ENV_VARS)) /\
    match environ O !! "WSLENV" with
    | Some old =>
        env !! "WSLENV" =
        Some (old +:+ ":RESTIC_REPOSITORY:AWS_ACCESS_KEY_ID:AWS_SECRET_ACCESS_KEY:RESTIC_PASSWORD")
    | None =>
        env !! "WSLENV" =
        Some (String ":"%char "RESTIC_REPOSITORY:AWS_ACCESS_KEY_ID:AWS_SECRET_ACCESS_KEY:RESTIC_PASSWORD")
    end.
Proof.
  eexists. split; [|split].
  - unfold backup_wsl. rewrite bind_run.
    pose proof (sh_popens O) as Hp.
    match goal with
    | |- context [sh O ?c ?k ?i ?e w] =>
        specialize (Hp c k i e w); destruct (sh O c k i e w) as [[r|x] w1]
    end; simpl in *; rewrite ?only_app; simpl; rewrite ?app_nil_r; exact Hp.
  - rewrite add_restic_env_wslenv, lookup_insert_eq, gen_wslenv_eq. done.
  - rewrite add_restic_env_wslenv, lookup_insert_eq, gen_wslenv_eq.
    by destruct (environ O !! "WSLENV").
Qed.

Lemma wslenv_allowlist_witness :
  exists env : gmap string string,
    last (only is_popen (trace (backup_wsl stormy initial).2)) =
      Some (Popen ([ "wsl.exe"; "--shell-type"; "none";
                     "/home/alex/.local/bin/restic"; "backup"; "/home/alex";
                     "--tag"; "WSL" ] ++ RESTIC_DEFAULT_ARGS) None (Some env)) /\
    env !! "WSLENV" =
      Some "TERM:RESTIC_REPOSITORY:AWS_ACCESS_KEY_ID:AWS_SECRET_ACCESS_KEY:RESTIC_PASSWORD".
Proof.
  destruct (wslenv_allowlist stormy initial) as (env & Hp & _ & Hw).
  exists env. split.
  - rewrite Hp. apply last_snoc.
  - exact Hw.
Defined.

(** * The snapshot of the local directories *)

Section Snapshots.

Variable O : Oracle.

Lemma swap_perm {A : Type} (x x' : list A) (i j : nat) :
  swap x i j = Some x' -> x' ≡ₚ x.
Proof.
  unfold swap. destruct (x !! j) as [xj|] eqn:Hj; [|done].
  destruct (x !! i) as [xi|] eqn:Hi; [|done].
  intros [= <-]. by apply Permutation_insert_swap.
Qed.

Lemma swap_in_range {A : Type} (x : list A) (i j : nat) :
  i < length x -> j < length x -> is_Some (swap x i j).
Proof.
  intros Hi Hj. unfold swap.
  destruct (lookup_lt_is_Some_2 x j Hj) as [xj ->].
  destruct (lookup_lt_is_Some_2 x i Hi) as [xi ->]. eauto.
Qed.

(** The shuffle never leaves the list: it returns a permutation of its
    argument and touches nothing but the random source. *)
Lemma shuffle_from_run {A : Type} (i : nat) (x : list A) (w : World) :
  i = 0 \/ i < length x ->
  exists x' w',
    shuffle_from O i x w = (Ok x', w') /\ x' ≡ₚ x /\
    heap w' = heap w /\
    only is_popen (trace w') = only is_popen (trace w).
Proof.
  revert x w. induction i as [|i IH]; intros x w Hi; simpl.
  - exists x, w. done.
  - destruct Hi as [Hi|Hi]; [done|].
    rewrite bind_run. unfold randbelow at 1.
    set (j := random_draw O _ mod S (S i)).
    assert (Hj : j < length x).
    { pose proof (Nat.mod_upper_bound
                    (random_draw O (count is_randbelow (trace w))) (S (S i))).
      unfold j. lia. }
    destruct (swap_in_range x (S i) j Hi Hj) as [x1 Hswap].
    rewrite Hswap.
    pose proof (swap_perm _ _ _ _ Hswap) as Hperm.
    destruct (IH x1 (emit (Randbelow (S (S i)) j) w)) as (x' & w' & E & P & H & T).
    { right. rewrite (Permutation_length Hperm). lia. }
    exists x', w'. split; [done|]. split; [by rewrite P|].
    split; [done|]. rewrite T. simpl. rewrite only_app. simpl.
    by rewrite app_nil_r.
Qed.

Lemma shuffle_run {A : Type} (x : list A) (w : World) :
  exists x' w',
    shuffle O x w = (Ok x', w') /\ x' ≡ₚ x /\
    heap w' = heap w /\
    only is_popen (trace w') = only is_popen (trace w).
Proof. apply shuffle_from_run. destruct x; simpl; lia. Qed.

Lemma backup_windows_dir_popens (dir : string) (w : World) :
  only is_popen (trace (backup_windows_dir O dir w).2) =
  only is_popen (trace w) ++
  [Popen (restic_backup_cmd dir) None (Some (add_restic_env (environ O)))].
Proof.
  unfold backup_windows_dir, restic_backup_cmd. rewrite bind_run. simpl.
  rewrite bind_run.
  match goal with
  | |- context [sh O ?c ?k ?i ?e ?w0] =>
      pose proof (sh_popens O c k i e w0) as Hp;
      destruct (sh O c k i e w0) as [[r|x] w1]
  end; simpl in *; rewrite ?only_app, Hp, only_app; simpl;
    by rewrite ?app_nil_r.
Qed.

(** The loop over the directories: each one is tried, whatever the others
    did, and the loop returns. *)
Lemma snapshot_loop (dirs : list string) (errors : loc) (w : World) :
  exists w',
    for_each dirs (fun backup_dir =>
      try_task (backup_windows_dir O (path_join O (home O) backup_dir)) errors)
      w = (Ok tt, w') /\
    only is_popen (trace w') =
      only is_popen (trace w) ++ map (snapshot_of O) dirs.
Proof.
  revert w. induction dirs as [|d dirs IH]; intros w; simpl.
  - exists w. by rewrite app_nil_r.
  - set (t := backup_windows_dir O (path_join O (home O) d)).
    destruct (try_task_returns t errors w) as [w1 E1].
    { apply task_backup_windows_dir. }
    assert (T1 : only is_popen (trace w1) =
                 only is_popen (trace w) ++ [snapshot_of O d]).
    { change w1 with (Ok tt, w1).2. rewrite <- E1, try_task_trace.
      apply backup_windows_dir_popens. }
    destruct (IH w1) as [w2 [E2 T2]]. exists w2.
    rewrite (bind_ok _ _ _ _ _ E1). split; [done|].
    by rewrite T2, T1, <- app_assoc.
Qed.

Lemma backup_c_drive_run (errors : loc) (w : World) :
  exists shuffled_dirs w',
    (shuffle O BACKUP_DIRS w).1 = Ok shuffled_dirs /\
    shuffled_dirs ≡ₚ BACKUP_DIRS /\
    backup_c_drive O errors w = (Ok tt, emit (Print "Backed up C drive") w') /\
    only is_popen (trace w') =
      only is_popen (trace w) ++ map (snapshot_of O) shuffled_dirs.
Proof.
  destruct (shuffle_run BACKUP_DIRS w) as (sh_dirs & w1 & E1 & P & _ & T1).
  destruct (snapshot_loop sh_dirs errors w1) as (w2 & E2 & T2).
  exists sh_dirs, w2. rewrite E1. split; [done|]. split; [done|].
  unfold backup_c_drive. rewrite (bind_ok _ _ _ _ _ E1).
  rewrite (bind_ok _ _ _ _ _ E2). split; [done|]. by rewrite T2, T1.
Qed.

End Snapshots.

Lemma BACKUP_DIRS_NoDup : NoDup BACKUP_DIRS.
Proof. apply (bool_decide_unpack _). vm_compute. reflexivity. Qed.

(** C6. The shuffle returns a permutation of [BACKUP_DIRS]: the same
    directories, none twice, and the task starts one snapshot for each
    directory of the shuffled list, in its order. *)
Theorem shuffle_keeps_directories (O : Oracle) (errors : loc) (w : World) :
  exists shuffled_dirs : list string,
    (shuffle O BACKUP_DIRS w).1 = Ok shuffled_dirs /\
    shuffled_dirs ≡ₚ BACKUP_DIRS /\
    NoDup shuffled_dirs /\
    (forall d, d ∈ shuffled_dirs <-> d ∈ BACKUP_DIRS) /\
    only is_popen (trace (backup_c_drive O errors w).2) =
      only is_popen (trace w) ++ map (snapshot_of O) shuffled_dirs.
Proof.
  destruct (backup_c_drive_run O errors w) as (dirs & w' & E & P & R & T).
  exists dirs. split; [done|]. split; [done|]. split; [|split].
  - rewrite P. apply BACKUP_DIRS_NoDup.
  - intros d. by rewrite P.
  - rewrite R. simpl. rewrite only_app, T. simpl. by rewrite app_nil_r.
Qed.

(** C7. Whatever the snapshots of the other directories do, the snapshot of
    the directory at each position of the shuffled list is started, and the
    loop runs to its end: the task returns after its closing line. *)
Theorem every_directory_attempted (O : Oracle) (errors : loc) (w : World) :
  exists shuffled_dirs : list string,
    (shuffle O BACKUP_DIRS w).1 = Ok shuffled_dirs /\
    (backup_c_drive O errors w).1 = Ok tt /\
    last (trace (backup_c_drive O errors w).2) = Some (Print "Backed up C drive") /\
    forall (i : nat) (d : string),
      shuffled_dirs !! i = Some d ->
      only is_popen (trace (backup_c_drive O errors w).2)
        !! (count is_popen (trace w) + i) = Some (snapshot_of O d).
Proof.
  destruct (backup_c_drive_run O errors w) as (dirs & w' & E & P & R & T).
  exists dirs. split; [done|]. rewrite R. simpl. split; [done|]. split.
  - by rewrite last_snoc.
  - intros i d Hd. rewrite only_app, T. simpl. rewrite app_nil_r.
    unfold count. rewrite lookup_app_r by lia.
    replace (_ + i - _) with i by lia.
    by rewrite list_lookup_fmap, Hd.
Qed.

Lemma every_directory_attempted_witness :
  let w := mkWorld [] [[]] in
  count is_popen (trace (backup_c_drive hostile errors_loc w).2) = 7 /\
  length <$> heap (backup_c_drive hostile errors_loc w).2 !! errors_loc = Some 7 /\
  exists shuffled_dirs : list string,
    (backup_c_drive hostile errors_loc w).1 = Ok tt /\
    forall (i : nat) (d : string),
      shuffled_dirs !! i = Some d ->
      only is_popen (trace (backup_c_drive hostile errors_loc w).2)
        !! (count is_popen (trace w) + i) = Some (snapshot_of hostile d).
Proof.
  intros w. split; [vm_compute; reflexivity|]. split; [vm_compute; reflexivity|].
  destruct (every_directory_attempted hostile errors_loc w)
    as (dirs & _ & R & _ & H).
  exists dirs. split; [exact R | exact H].
Defined.

(** * Further properties of the script *)

(** ** The exclude flags *)

Lemma gen_exclude_flags_from (flags patterns : list string) :
  foldl (fun flags pattern => (flags ++ ["--exclude"]) ++ [pattern]) flags patterns =
  flags ++ concat (map (fun pattern => ["--exclude"; pattern]) patterns).
Proof.
  revert flags. induction patterns as [|p patterns IH]; intros flags; simpl.
  - by rewrite app_nil_r.
  - rewrite IH. by rewrite <- !app_assoc.
Qed.

Lemma gen_exclude_flags_concat (patterns : list string) :
  gen_exclude_flags patterns =
  concat (map (fun pattern => ["--exclude"; pattern]) patterns).
Proof. unfold gen_exclude_flags. by rewrite gen_exclude_flags_from. Qed.

(** X1. The flag list holds, for each pattern in turn, the flag
    ["--exclude"] followed by the pattern, and nothing else: it is twice as
    long as the pattern list; no pattern gives no flag. *)
Theorem gen_exclude_flags_pairs (patterns : list string) :
  gen_exclude_flags patterns =
    concat (map (fun pattern => ["--exclude"; pattern]) patterns) /\
  length (gen_exclude_flags patterns) = 2 * length patterns /\
  (gen_exclude_flags patterns = [] <-> patterns = []).
Proof.
  split; [apply gen_exclude_flags_concat|].
  rewrite gen_exclude_flags_concat. split.
  - induction patterns as [|p patterns IH]; [done|].
    cbn [map concat app length]. rewrite IH. lia.
  - destruct patterns; simpl; split; done.
Qed.

Lemma gen_exclude_flags_infix (patterns : list string) (p : string) :
  p ∈ patterns ->
  exists l1 l2, gen_exclude_flags patterns = l1 ++ ["--exclude"; p] ++ l2.
Proof.
  intros Hp. rewrite gen_exclude_flags_concat.
  apply list_elem_of_split in Hp as (k1 & k2 & ->).
  exists (concat (map (fun pattern => ["--exclude"; pattern]) k1)),
         (concat (map (fun pattern => ["--exclude"; pattern]) k2)).
  by rewrite map_app, concat_app.
Qed.

(** ** The environment and the command line of the restic subprocesses *)

Lemma add_restic_env_set (env : gmap string string) (var val : string) :
  (var, val) ∈ RESTIC_ENV_VARS -> add_restic_env env !! var = Some val.
Proof.
  unfold RESTIC_ENV_VARS, add_restic_env. rewrite !elem_of_cons, elem_of_nil.
  intros [E|[E|[E|[E|[]]]]]; injection E as -> ->; simpl;
    repeat (rewrite lookup_insert_eq || rewrite lookup_insert_ne by done);
    done.
Qed.

Lemma add_restic_env_other (env : gmap string string) (var : string) :
  var ∉ RESTIC_ENV_VARS.*1 -> add_restic_env env !! var = env !! var.
Proof.
  unfold RESTIC_ENV_VARS, add_restic_env. simpl.
  rewrite !not_elem_of_cons. intros (H1 & H2 & H3 & H4 & _).
  by rewrite !lookup_insert_ne.
Qed.

Lemma backup_wsl_popens (O : Oracle) (w : World) :
  only is_popen (trace (backup_wsl O w).2) =
  only is_popen (trace w) ++
  [Popen wsl_backup_cmd None
     (Some (add_restic_env (<["WSLENV" := gen_wslenv (environ O)]> (environ O))))].
Proof.
  unfold backup_wsl, wsl_backup_cmd. rewrite bind_run.
  pose proof (sh_popens O) as Hp.
  match goal with
  | |- context [sh O ?c ?k ?i ?e w] =>
      specialize (Hp c k i e w); destruct (sh O c k i e w) as [[r|x] w1]
  end; simpl in *; rewrite ?only_app; simpl; rewrite ?app_nil_r; exact Hp.
Qed.

(** X2. Every configured exclude pattern reaches restic, on the host and in
    the secondary environment: the command line of a directory's snapshot
    and the command line of [backup_wsl] both hold ["--exclude"] directly
    followed by the pattern. *)
Theorem restic_excludes (O : Oracle) (dir : string) (w : World) (p : string) :
  p ∈ EXCLUDE_PATH_PATTERNS ->
  (exists l1 l2 env,
     only is_popen (trace (backup_windows_dir O dir w).2) =
     only is_popen (trace w) ++ [Popen (l1 ++ ["--exclude"; p] ++ l2) None env]) /\
  (exists l1 l2 env,
     only is_popen (trace (backup_wsl O w).2) =
     only is_popen (trace w) ++ [Popen (l1 ++ ["--exclude"; p] ++ l2) None env]).
Proof.
  intros Hp.
  destruct (gen_exclude_flags_infix EXCLUDE_PATH_PATTERNS p Hp) as (k1 & k2 & E).
  split.
  - exists ("restic" :: k1),
           (k2 ++ ["backup"; dir; "--use-fs-snapshot"; "--tag"; "Windows"]).
    eexists. rewrite backup_windows_dir_popens.
    unfold restic_backup_cmd, RESTIC_DEFAULT_ARGS. rewrite E.
    by rewrite <- !app_assoc.
  - exists ([ "wsl.exe"; "--shell-type"; "none"; "/home/alex/.local/bin/restic";
              "backup"; "/home/alex"; "--tag"; "WSL" ] ++ k1), k2.
    eexists. rewrite backup_wsl_popens.
    unfold wsl_backup_cmd, RESTIC_DEFAULT_ARGS. rewrite E.
    by rewrite <- !app_assoc.
Qed.

Lemma restic_excludes_witness :
  ".npm/**" ∈ EXCLUDE_PATH_PATTERNS /\
  exists l1 l2 env,
    only is_popen (trace (backup_windows_dir calm "C:\Users\alex\Music" initial).2) =
    only is_popen (trace initial) ++ [Popen (l1 ++ ["--exclude"; ".npm/**"] ++ l2) None env].
Proof.
  assert (H : ".npm/**" ∈ EXCLUDE_PATH_PATTERNS).
  { apply (bool_decide_unpack _). vm_compute. reflexivity. }
  split; [exact H|].
  exact (proj1 (restic_excludes calm "C:\Users\alex\Music" initial ".npm/**" H)).
Defined.

(** X3. The subprocess of a directory's snapshot runs in the inherited
    environment with the four restic variables set to their configured
    values: a configured value replaces an inherited one of the same name,
    every other variable is passed on as it is. *)
Theorem snapshot_environment (O : Oracle) (dir : string) (w : World) :
  exists env : gmap string string,
    only is_popen (trace (backup_windows_dir O dir w).2) =
      only is_popen (trace w) ++ [Popen (restic_backup_cmd dir) None (Some env)] /\
    (forall var val, (var, val) ∈ RESTIC_ENV_VARS -> env !! var = Some val) /\
    (forall var, var ∉ RESTIC_ENV_VARS.*1 -> env !! var = environ O !! var).
Proof.
  exists (add_restic_env (environ O)). split; [apply backup_windows_dir_popens|].
  split; [apply add_restic_env_set | apply add_restic_env_other].
Qed.

(** X4. The subprocess of [backup_wsl] has in its environment every
    variable its WSLENV names at the end: the four restic variables are set
    to their configured values, and apart from them and WSLENV the inherited
    environment is passed on as it is. *)
Theorem wsl_environment (O : Oracle) (w : World) :
  exists env : gmap string string,
    only is_popen (trace (backup_wsl O w).2) =
      only is_popen (trace w) ++ [Popen wsl_backup_cmd None (Some env)] /\
    (forall var val, (var, val) ∈ RESTIC_ENV_VARS -> env !! var = Some val) /\
    (forall var, var ∉ RESTIC_ENV_VARS.*1 -> var <> "WSLENV" ->
                 env !! var = environ O !! var).
Proof.
  eexists. split; [apply backup_wsl_popens|].
  split; [apply add_restic_env_set|].
  intros var Hvar Hw. rewrite add_restic_env_other by done.
  by rewrite lookup_insert_ne.
Qed.

(** ** The Command Runner, further *)

Lemma lstrip_clean (s : string) : starts_clean (Py.lstrip s).
Proof.
  induction s as [|c s IH]; simpl; [done|].
  destruct (Py.isspace c) eqn:Hc; [done|]. simpl. exact Hc.
Qed.

Lemma lstrip_id (s : string) : starts_clean s -> Py.lstrip s = s.
Proof. destruct s as [|c s]; simpl; [done|]. by intros ->. Qed.

Lemma rstrip_clean (s : string) : starts_clean s -> starts_clean (Py.rstrip s).
Proof.
  destruct s as [|c s]; simpl; [done|]. intros Hc.
  destruct (Py.rstrip s); simpl; [by rewrite Hc|done].
Qed.

Lemma rstrip_idem (s : string) : Py.rstrip (Py.rstrip s) = Py.rstrip s.
Proof.
  induction s as [|c s IH]; simpl; [done|].
  destruct (Py.rstrip s) as [|d r] eqn:Hr.
  - destruct (Py.isspace c) eqn:Hc; simpl; [done|]. by rewrite Hc.
  - change (Py.rstrip (String c (String d r))) with
      (match Py.rstrip (String d r) with
       | "" => if Py.isspace c then "" else String c ""
       | r' => String c r'
       end).
    by rewrite IH.
Qed.

Lemma strip_idem (s : string) : Py.strip (Py.strip s) = Py.strip s.
Proof.
  unfold Py.strip.
  rewrite (lstrip_id (Py.rstrip (Py.lstrip s))).
  - apply rstrip_idem.
  - apply rstrip_clean, lstrip_clean.
Qed.

Lemma sh_result (O : Oracle) cmd check stdin_str env (w : World) :
  (sh O cmd check stdin_str env w).1 =
  match proc_result O (count is_popen (trace w)) with
  | Exited rc out err =>
      if check && negb (rc =? 0)%Z
      then Raise (ShellError (shell_error_msg cmd rc (Py.strip out) (Py.strip err)))
      else Ok (Py.strip out)
  | ProcRaised text => Raise (PyException text)
  end.
Proof.
  rewrite sh_run. simpl. destruct (proc_result O _) as [rc out err|text]; [|done].
  by destruct (check && negb (rc =? 0)%Z).
Qed.

(** X5. Whatever the subprocess does, one call of [sh] starts exactly one
    subprocess, with the command, the input and the environment it was
    given, after logging the command; it sends no mail and touches no
    list. *)
Theorem sh_one_subprocess (O : Oracle) (cmd : list string) (check : bool)
    (stdin_str : option string) (env : option (gmap string string)) (w : World) :
  let w' := (sh O cmd check stdin_str env w).2 in
  (exists tr,
     trace w' =
     trace w ++ [Print ("Running command: " +:+ Py.repr_list cmd);
                 Popen cmd stdin_str env] ++ tr /\
     only is_popen tr = [] /\ only is_smtp tr = []) /\
  heap w' = heap w.
Proof.
  simpl. rewrite sh_run. simpl.
  destruct (proc_result O _) as [rc out err|text]; simpl.
  - destruct (check && negb (rc =? 0)%Z); simpl.
    + split; [|done]. eexists [_]. by rewrite <- !app_assoc.
    + destruct (_ || _); simpl; (split; [|done]).
      * eexists [_]. by rewrite <- !app_assoc.
      * exists []. by rewrite <- !app_assoc.
  - split; [|done]. exists []. by rewrite <- !app_assoc.
Qed.

(** X6. What [sh] returns is trimmed: stripping it again changes nothing,
    so it neither starts nor ends with white space. *)
Theorem sh_result_trimmed (O : Oracle) (cmd : list string) (check : bool)
    (stdin_str : option string) (env : option (gmap string string))
    (w : World) (s : string) :
  (sh O cmd check stdin_str env w).1 = Ok s -> Py.strip s = s.
Proof.
  rewrite sh_result. destruct (proc_result O _) as [rc out err|text]; [|done].
  destruct (check && negb (rc =? 0)%Z); [done|].
  intros [= <-]. apply strip_idem.
Qed.

Lemma sh_result_trimmed_witness :
  (sh no_rclone ["choco"; "upgrade"; "all"] true None None initial).1 = Ok "done" /\
  Py.strip "done" = "done".
Proof.
  assert (H : (sh no_rclone ["choco"; "upgrade"; "all"] true None None initial).1
              = Ok "done") by (vm_compute; reflexivity).
  split; [exact H|]. exact (sh_result_trimmed _ _ _ _ _ _ _ H).
Defined.

(** X7. When the subprocess cannot be run, [sh] raises the error of
    [Popen] itself, not a [ShellError], whether or not the exit code is
    checked, and logs nothing after the command line. *)
Theorem sh_spawn_failure (O : Oracle) (cmd : list string) (check : bool)
    (stdin_str : option string) (env : option (gmap string string))
    (w : World) (text : string) :
  proc_result O (count is_popen (trace w)) = ProcRaised text ->
  sh O cmd check stdin_str env w =
    (Raise (PyException text),
     mkWorld (trace w ++ [Print ("Running command: " +:+ Py.repr_list cmd);
                          Popen cmd stdin_str env])
             (heap w)).
Proof.
  intros Hp. rewrite sh_run, Hp. unfold emit. simpl. by rewrite <- app_assoc.
Qed.

Lemma sh_spawn_failure_witness :
  proc_result no_git (count is_popen (trace initial)) =
    ProcRaised "[WinError 2] git not found" /\
  sh no_git ["git"; "commit"] false None None initial =
    (Raise (PyException "[WinError 2] git not found"),
     mkWorld [Print "Running command: ['git', 'commit']";
              Popen ["git"; "commit"] None None] []).
Proof.
  assert (H : proc_result no_git (count is_popen (trace initial)) =
              ProcRaised "[WinError 2] git not found") by reflexivity.
  split; [exact H|].
  exact (sh_spawn_failure no_git ["git"; "commit"] false None None initial _ H).
Defined.

(** ** Tasks of several steps *)

Local Ltac run_sh n :=
  rewrite bind_run, sh_run; rewrite ?count_emit; cbn [is_popen];
  rewrite ?Nat.add_0_r, ?Nat.add_1_r; fold n.

Local Ltac popens_done :=
  unfold print, emit; cbn [trace heap fst snd]; rewrite ?only_app;
  cbn [only List.filter is_popen];
  rewrite ?app_nil_r, <- ?app_assoc; try done.

(** X8. [backup_aws] stops at the first failure: the second mirror is
    started only when the first one has exited with code zero, and the task
    ends as its first failing step does. *)
Theorem backup_aws_fail_fast (O : Oracle) (w : World) :
  let n := count is_popen (trace w) in
  only is_popen (trace (backup_aws O w).2) =
    only is_popen (trace w) ++
    Popen (ghidra_cmd O) None None ::
    (if succeeded (proc_result O n) then [Popen (twitchbot_cmd O) None None] else []) /\
  (backup_aws O w).1 =
    match checked (ghidra_cmd O) (proc_result O n) with
    | Ok _ => checked (twitchbot_cmd O) (proc_result O (S n))
    | Raise e => Raise e
    end.
Proof.
  intros n. unfold backup_aws. fold (ghidra_cmd O). fold (twitchbot_cmd O).
  run_sh n.
  destruct (proc_result O n) as [rc out err|text]; cbn [succeeded checked andb negb].
  2: { split; popens_done. }
  destruct (rc =? 0)%Z; cbn [negb].
  2: { split; popens_done. }
  assert (Hnext : forall w1 : World,
    count is_popen (trace w1) = S n ->
    only is_popen (trace w1) = only is_popen (trace w) ++ [Popen (ghidra_cmd O) None None] ->
    let r := (print "Downloaded Ghidra community server repository" ;;
              sh O (twitchbot_cmd O) true None None ;;
              print "Downloaded twitchbot") w1 in
    only is_popen (trace r.2) =
      only is_popen (trace w) ++
      [Popen (ghidra_cmd O) None None; Popen (twitchbot_cmd O) None None] /\
    r.1 = checked (twitchbot_cmd O) (proc_result O (S n))).
  { intros w1 Hc Hp. cbn zeta. rewrite bind_run. cbn [print].
    rewrite bind_run, sh_run, count_emit. cbn [is_popen].
    rewrite Nat.add_0_r, Hc.
    destruct (proc_result O (S n)) as [rc' out' err'|text']; cbn [checked andb].
    - destruct (rc' =? 0)%Z; cbn [negb].
      + destruct (_ || _); split; popens_done; by rewrite Hp, <- app_assoc.
      + split; popens_done. by rewrite Hp, <- app_assoc.
    - split; popens_done. by rewrite Hp, <- app_assoc. }
  destruct (_ || _); apply Hnext.
  - rewrite !count_emit. cbn [is_popen]. fold n. lia.
  - popens_done.
  - rewrite !count_emit. cbn [is_popen]. fold n. lia.
  - popens_done.
Qed.

(** X9. [wsl_upgrade] stops at the first failure: [apt upgrade] is started
    only when [apt update] has exited with code zero, and the task ends as
    its first failing step does. *)
Theorem wsl_upgrade_fail_fast (O : Oracle) (w : World) :
  let n := count is_popen (trace w) in
  let update := ["wsl.exe"; "sudo"; "apt"; "update"] in
  let upgrade := ["wsl.exe"; "sudo"; "apt"; "upgrade"; "-y"] in
  only is_popen (trace (wsl_upgrade O w).2) =
    only is_popen (trace w) ++
    Popen update None None ::
    (if succeeded (proc_result O n) then [Popen upgrade None None] else []) /\
  (wsl_upgrade O w).1 =
    match checked update (proc_result O n) with
    | Ok _ => checked upgrade (proc_result O (S n))
    | Raise e => Raise e
    end.
Proof.
  intros n update upgrade. unfold wsl_upgrade. fold update. fold upgrade.
  run_sh n.
  destruct (proc_result O n) as [rc out err|text]; cbn [succeeded checked andb negb].
  2: { split; popens_done. }
  destruct (rc =? 0)%Z; cbn [negb].
  2: { split; popens_done. }
  assert (Hnext : forall w1 : World,
    count is_popen (trace w1) = S n ->
    only is_popen (trace w1) = only is_popen (trace w) ++ [Popen update None None] ->
    let r := (sh O upgrade true None None ;;
              print "Updated apt packages in WSL") w1 in
    only is_popen (trace r.2) =
      only is_popen (trace w) ++ [Popen update None None; Popen upgrade None None] /\
    r.1 = checked upgrade (proc_result O (S n))).
  { intros w1 Hc Hp. cbn zeta. rewrite bind_run, sh_run, Hc.
    destruct (proc_result O (S n)) as [rc' out' err'|text']; cbn [checked andb].
    - destruct (rc' =? 0)%Z; cbn [negb].
      + destruct (_ || _); split; popens_done; by rewrite Hp, <- app_assoc.
      + split; popens_done. by rewrite Hp, <- app_assoc.
    - split; popens_done. by rewrite Hp, <- app_assoc. }
  destruct (_ || _); apply Hnext.
  - rewrite !count_emit. cbn [is_popen]. fold n. lia.
  - popens_done.
  - rewrite !count_emit. cbn [is_popen]. fold n. lia.
  - popens_done.
Qed.

(** X10. When the notes directory cannot be entered, [commit_notes] runs no
    [git] command at all, and the wrapped task leaves the error of [chdir]
    in the error list, as an exception object. *)
Theorem commit_notes_without_directory (O : Oracle) (errors : loc) (w : World)
    (es : list pyval) (text : string) :
  chdir_result O (count is_chdir (trace w)) = Some text ->
  heap w !! errors = Some es ->
  only is_popen (trace (try_task (commit_notes O) errors w).2) =
    only is_popen (trace w) /\
  heap (try_task (commit_notes O) errors w).2 !! errors =
    Some (es ++ [VExc (PyException text)]).
Proof.
  intros Hch Hes. unfold try_task, commit_notes.
  rewrite !bind_run. unfold chdir. rewrite Hch. simpl. split.
  - rewrite only_app. simpl. by rewrite app_nil_r.
  - by rewrite list_lookup_alter_eq, Hes.
Qed.

Lemma commit_notes_without_directory_witness :
  let w := mkWorld [] [[]] in
  only is_popen (trace (try_task (commit_notes no_notes) errors_loc w).2) = [] /\
  heap (try_task (commit_notes no_notes) errors_loc w).2 !! errors_loc =
    Some [VExc (PyException
                  "[WinError 3] The system cannot find the path specified")].
Proof.
  intros w.
  apply (commit_notes_without_directory no_notes errors_loc w []); reflexivity.
Defined.

(** ** The shuffle and the snapshots, further *)

Lemma shuffle_from_draws (O : Oracle) {A : Type} (i : nat) (x : list A) (w : World) :
  i = 0 \/ i < length x ->
  exists x' tr,
    shuffle_from O i x w = (Ok x', mkWorld (trace w ++ tr) (heap w)) /\
    x' ≡ₚ x /\ length tr = i /\ Forall (in_range_draw (length x)) tr.
Proof.
  revert x w. induction i as [|i IH]; intros x w Hi; simpl.
  - exists x, []. destruct w. simpl. by rewrite app_nil_r.
  - destruct Hi as [Hi|Hi]; [done|].
    rewrite bind_run. unfold randbelow at 1.
    set (j := random_draw O _ mod S (S i)).
    assert (Hj : j < S (S i)) by (apply Nat.mod_upper_bound; lia).
    destruct (swap_in_range x (S i) j) as [x1 Hswap]; [lia..|].
    rewrite Hswap.
    pose proof (swap_perm _ _ _ _ Hswap) as Hperm.
    pose proof (Permutation_length Hperm) as Hlen.
    destruct (IH x1 (emit (Randbelow (S (S i)) j) w)) as (x' & tr & E & P & L & F).
    { right. lia. }
    exists x', (Randbelow (S (S i)) j :: tr). rewrite E. simpl.
    split; [by rewrite <- app_assoc|]. split; [by rewrite P|].
    split; [by rewrite L|]. constructor.
    + simpl. lia.
    + by rewrite <- Hlen.
Qed.

(** X11. For a list of any length and any random source, the shuffle
    returns a permutation of the list; it draws one number less than the
    list has elements, each below its bound, so that no exchange leaves the
    list, and does nothing else.  An empty list or a list of one element
    comes back as it is, with no draw. *)
Theorem shuffle_any_list (O : Oracle) {A : Type} (x : list A) (w : World) :
  exists x' tr,
    shuffle O x w = (Ok x', mkWorld (trace w ++ tr) (heap w)) /\
    x' ≡ₚ x /\
    length tr = length x - 1 /\
    Forall (in_range_draw (length x)) tr /\
    (length x <= 1 -> x' = x /\ tr = []).
Proof.
  destruct (shuffle_from_draws O (length x - 1) x w) as (x' & tr & E & P & L & F).
  { destruct x; simpl; lia. }
  exists x', tr. repeat split; try done.
  - destruct x as [|a [|b x]]; simpl in *; try lia.
    + by apply Permutation_nil_r in P.
    + by apply Permutation_singleton_r in P.
  - destruct tr; [done|]. simpl in *. lia.
Qed.

(** X12. [backup_c_drive] never raises, so the wrapper the orchestrator puts
    around it does nothing: the wrapped task is the task. *)
Theorem backup_c_drive_wrapper_idle (O : Oracle) (errors : loc) (w : World) :
  (backup_c_drive O errors w).1 = Ok tt /\
  try_task (backup_c_drive O errors) errors w = backup_c_drive O errors w.
Proof.
  destruct (backup_c_drive_run O errors w) as (dirs & w' & _ & _ & R & _).
  unfold try_task. by rewrite R.
Qed.

Lemma try_snapshot (O : Oracle) (dir : string) (errors : loc) (w : World)
    (es : list pyval) :
  heap w !! errors = Some es ->
  let w' := (try_task (backup_windows_dir O dir) errors w).2 in
  heap w' !! errors =
    Some (es ++ failure_entry (restic_backup_cmd dir)
                  (proc_result O (count is_popen (trace w)))) /\
  count is_popen (trace w') = S (count is_popen (trace w)).
Proof.
  intros Hes. cbn zeta. split.
  - unfold try_task, backup_windows_dir. fold (restic_backup_cmd dir).
    rewrite bind_run. cbn [print]. rewrite bind_run, sh_run, count_emit.
    cbn [is_popen]. rewrite Nat.add_0_r.
    destruct (proc_result O _) as [rc out err|text]; cbn [failure_entry andb].
    + destruct (rc =? 0)%Z; cbn [negb].
      * destruct (_ || _); simpl; by rewrite app_nil_r.
      * simpl. by rewrite list_lookup_alter_eq, Hes.
    + simpl. by rewrite list_lookup_alter_eq, Hes.
  - rewrite try_task_trace. unfold count.
    rewrite backup_windows_dir_popens, length_app. simpl. lia.
Qed.

Lemma snapshot_loop_errors (O : Oracle) (dirs : list string) (errors : loc)
    (w : World) (es : list pyval) :
  heap w !! errors = Some es ->
  heap (for_each dirs (fun backup_dir =>
          try_task (backup_windows_dir O (path_join O (home O) backup_dir)) errors)
          w).2 !! errors =
    Some (es ++ snapshot_failures O (count is_popen (trace w)) dirs).
Proof.
  revert w es. induction dirs as [|d dirs IH]; intros w es Hes; simpl.
  - by rewrite app_nil_r.
  - set (t := backup_windows_dir O (path_join O (home O) d)).
    destruct (try_task_returns t errors w) as [w1 E1].
    { apply task_backup_windows_dir. }
    destruct (try_snapshot O (path_join O (home O) d) errors w es Hes) as [H1 C1].
    fold t in H1, C1. rewrite E1 in H1, C1. simpl in H1, C1.
    rewrite (bind_ok _ _ _ _ _ E1), (IH w1 _ H1), C1. by rewrite <- app_assoc.
Qed.

(** X13. [backup_c_drive] leaves in the error list one entry for each
    directory whose snapshot failed and none for the others, in the order
    of the shuffled list: the [ShellError] message of the snapshot's own
    command when restic exited with another code than zero, the exception
    when restic could not be run. *)
Theorem backup_c_drive_errors (O : Oracle) (errors : loc) (w : World)
    (es : list pyval) :
  heap w !! errors = Some es ->
  exists shuffled_dirs : list string,
    (shuffle O BACKUP_DIRS w).1 = Ok shuffled_dirs /\
    heap (backup_c_drive O errors w).2 !! errors =
      Some (es ++ snapshot_failures O (count is_popen (trace w)) shuffled_dirs).
Proof.
  intros Hes.
  destruct (shuffle_run O BACKUP_DIRS w) as (dirs & w1 & E1 & _ & H1 & T1).
  exists dirs. rewrite E1. split; [done|].
  destruct (snapshot_loop O dirs errors w1) as (w2 & E2 & _).
  pose proof (snapshot_loop_errors O dirs errors w1 es) as Hloop.
  rewrite H1 in Hloop. specialize (Hloop Hes). rewrite E2 in Hloop.
  unfold backup_c_drive. rewrite (bind_ok _ _ _ _ _ E1), (bind_ok _ _ _ _ _ E2).
  simpl. simpl in Hloop. rewrite Hloop. unfold count. by rewrite T1.
Qed.

Lemma backup_c_drive_errors_witness :
  let w := mkWorld [] [[]] in
  exists shuffled_dirs : list string,
    (shuffle hostile BACKUP_DIRS w).1 = Ok shuffled_dirs /\
    heap (backup_c_drive hostile errors_loc w).2 !! errors_loc =
      Some ([] ++ snapshot_failures hostile 0 shuffled_dirs).
Proof.
  intros w. apply (backup_c_drive_errors hostile errors_loc w []). reflexivity.
Defined.

(** ** The whole run, further *)

Lemma main_after_tasks (O : Oracle) :
  let w7 := (run_tasks O 7 errors_loc (mkWorld [] [[]])).2 in
  exists tr,
    trace (main O initial).2 = trace w7 ++ tr /\
    only is_popen tr = [] /\
    only is_smtp (trace w7) = [] /\
    heap (main O initial).2 = heap w7.
Proof.
  cbn zeta.
  destruct (run_tasks_ok O 7 errors_loc (mkWorld [] [[]])) as [w [Erun Hext]].
  rewrite Erun. cbn [snd].
  destruct Hext as [[tr0 [Etr Hsmtp]] _]. simpl in Etr.
  assert (Hs : only is_smtp (trace w) = []) by (by rewrite Etr).
  unfold main. rewrite do_backup_windows_phases, bind_run. simpl.
  rewrite (bind_ok _ _ _ _ _ Erun), report_run. cbn zeta.
  destruct (smtp_result O (count is_smtp (trace w))) as [text|]; simpl.
  - unfold notify, smtp_session. cbn zeta.
    match goal with
    | |- context [smtp_result O ?k] =>
        destruct (smtp_result O k) as [text'|]
    end; simpl; (eexists [_; _]; rewrite <- app_assoc; done).
  - eexists [_; _]. rewrite <- app_assoc. done.
Qed.

(** X14. The run ends normally unless both SMTP sessions fail: it ends with
    an unhandled exception exactly when the summary and the notification of
    the top-level handler are both refused, and that exception is the
    second refusal. *)
Theorem main_result (O : Oracle) :
  (main O initial).1 =
  match smtp_result O 0, smtp_result O 1 with
  | Some _, Some text' => Raise (PyException text')
  | _, _ => Ok tt
  end.
Proof.
  destruct (main_run O) as (w & es & _ & _ & E). rewrite E.
  destruct (smtp_result O 0); [|done]. by destruct (smtp_result O 1).
Qed.

(** X15. The notification comes after the work: in the trace of a run every
    subprocess precedes every SMTP session, and at least one session
    follows. *)
Theorem notification_after_tasks (O : Oracle) :
  exists tr1 e tr2,
    trace (main O initial).2 = tr1 ++ e :: tr2 /\
    only is_smtp tr1 = [] /\
    is_smtp e = true /\
    only is_popen tr2 = [].
Proof.
  destruct (main_run O) as (w & es & Hs & _ & E). rewrite E.
  exists (trace w).
  destruct (smtp_result O 0) as [text|].
  - destruct (smtp_result O 1) as [text'|]; simpl;
      eexists _, [_]; rewrite <- app_assoc; done.
  - simpl. eexists _, [_]. rewrite <- app_assoc. done.
Qed.

Lemma extends_popens (w w' : World) (e : event) :
  extends w w' ->
  e ∈ only is_popen (trace w) -> e ∈ only is_popen (trace w').
Proof.
  intros [[tr [E _]] _] He. rewrite E, only_app. apply elem_of_app. by left.
Qed.

Lemma starts_with_sh (O : Oracle) {A : Type} cmd check stdin_str env
    (k : string -> M A) (w : World) :
  (forall s, task (k s)) ->
  Popen cmd stdin_str env ∈
    only is_popen (trace ((sh O cmd check stdin_str env ≫= k) w).2).
Proof.
  intros Hk. rewrite bind_run.
  pose proof (sh_popens O cmd check stdin_str env w) as Hp.
  destruct (sh O cmd check stdin_str env w) as [[s|x] w1]; simpl in Hp.
  - apply (extends_popens w1); [apply Hk|].
    rewrite Hp. apply elem_of_app. right. by left.
  - simpl. rewrite Hp. apply elem_of_app. right. by left.
Qed.

Lemma catalog_step_runs (O : Oracle) (errors : loc) (k : nat) (t : M unit)
    (e : event) :
  catalog O errors !! k = Some t ->
  (forall w, e ∈ only is_popen (trace (t w).2)) ->
  forall w, e ∈ only is_popen (trace (run_tasks O 7 errors w).2).
Proof.
  intros Hk Ht w. unfold run_tasks.
  rewrite firstn_all2 by (simpl; lia).
  rewrite <- (take_drop_middle _ _ _ Hk), for_each_app.
  destruct (for_each_try_task (take k (catalog O errors)) errors) with (w := w)
    as [w1 [E1 _]].
  { intros t' Ht'. apply (catalog_tasks O errors). by apply (subseteq_take k). }
  rewrite (bind_ok _ _ _ _ _ E1). cbn [for_each].
  assert (Htask : task t).
  { apply (catalog_tasks O errors). by eapply list_elem_of_lookup_2. }
  destruct (try_task_returns t errors w1) as [w2 E2]; [apply Htask|].
  rewrite (bind_ok _ _ _ _ _ E2).
  destruct (for_each_try_task (drop (S k) (catalog O errors)) errors) with (w := w2)
    as [w3 [E3 X3]].
  { intros t' Ht'. apply (catalog_tasks O errors). by apply (subseteq_drop (S k)). }
  cbn beta. rewrite E3. simpl. apply (extends_popens w2); [done|].
  change w2 with (Ok tt, w2).2. rewrite <- E2, try_task_trace. apply Ht.
Qed.

(** X16. No task keeps a later one from running: whatever the earlier
    subprocesses did, every run starts the first mirror of [backup_aws], the
    Chocolatey upgrade, [apt update], the snapshot of every directory of
    [BACKUP_DIRS], the backup of the secondary environment and the integrity
    check. *)
Theorem every_task_attempted (O : Oracle) :
  let started := only is_popen (trace (main O initial).2) in
  Popen (ghidra_cmd O) None None ∈ started /\
  Popen ["choco"; "upgrade"; "all"] None None ∈ started /\
  Popen ["wsl.exe"; "sudo"; "apt"; "update"] None None ∈ started /\
  (forall d, d ∈ BACKUP_DIRS -> snapshot_of O d ∈ started) /\
  (exists env, Popen wsl_backup_cmd None (Some env) ∈ started) /\
  Popen ["restic"; "check"] None (Some (add_restic_env (environ O))) ∈ started.
Proof.
  cbn zeta.
  destruct (main_after_tasks O) as (tr & E & _ & _ & _). rewrite E.
  assert (Hin : forall e,
    e ∈ only is_popen (trace (run_tasks O 7 errors_loc (mkWorld [] [[]])).2) ->
    e ∈ only is_popen
          (trace (run_tasks O 7 errors_loc (mkWorld [] [[]])).2 ++ tr)).
  { intros e He. rewrite only_app. apply elem_of_app. by left. }
  split; [|split; [|split; [|split; [|split]]]].
  - apply Hin, (catalog_step_runs O errors_loc 1 (backup_aws O)); [done|].
    intros w. unfold backup_aws. fold (ghidra_cmd O).
    apply starts_with_sh. intros s.
    repeat first [ apply task_print | apply task_sh
                 | apply task_bind; [|intros ?] ].
  - apply Hin, (catalog_step_runs O errors_loc 2 (choco_upgrade O)); [done|].
    intros w. apply starts_with_sh. intros s. apply task_print.
  - apply Hin, (catalog_step_runs O errors_loc 3 (wsl_upgrade O)); [done|].
    intros w. apply starts_with_sh. intros s.
    apply task_bind; [apply task_sh | intros ?; apply task_print].
  - intros d Hd.
    apply Hin, (catalog_step_runs O errors_loc 4 (backup_c_drive O errors_loc));
      [done|].
    intros w.
    destruct (backup_c_drive_run O errors_loc w) as (dirs & w' & _ & P & R & T).
    rewrite R. simpl. rewrite only_app, T. simpl. rewrite app_nil_r.
    apply elem_of_app. right. apply list_elem_of_fmap. exists d.
    split; [done|]. by rewrite P.
  - eexists.
    apply Hin, (catalog_step_runs O errors_loc 5 (backup_wsl O)); [done|].
    intros w. rewrite backup_wsl_popens. apply elem_of_app. right. by left.
  - apply Hin, (catalog_step_runs O errors_loc 6 (check_restic_integrity O));
      [done|].
    intros w. apply starts_with_sh. intros s. apply task_ret.
Qed.

(** ** How many errors a run can report *)

Lemma adds_weaken {A : Type} (n n' : nat) (m : M A) :
  n <= n' -> adds n m -> adds n' m.
Proof.
  intros Hn Hm w l es Hes. destruct (Hm w l es Hes) as (suf & H & L).
  exists suf. split; [done | lia].
Qed.

Lemma adds_keeps {A : Type} (m : M A) :
  (forall w, heap (m w).2 = heap w) -> adds 0 m.
Proof.
  intros Hm w l es Hes. exists []. rewrite Hm, app_nil_r. done.
Qed.

Lemma adds_bind {A B : Type} (n1 n2 : nat) (m : M A) (f : A -> M B) :
  adds n1 m -> (forall a, adds n2 (f a)) -> adds (n1 + n2) (m ≫= f).
Proof.
  intros Hm Hf w l es Hes. rewrite bind_run.
  destruct (Hm w l es Hes) as (s1 & H1 & L1).
  destruct (m w) as [[a|e] w1]; simpl in H1.
  - destruct (Hf a w1 l _ H1) as (s2 & H2 & L2).
    exists (s1 ++ s2). rewrite app_assoc, length_app. split; [done | lia].
  - exists s1. split; [done | lia].
Qed.

Lemma adds_try_task (n : nat) (t : M unit) (errors : loc) :
  adds n t -> adds (S n) (try_task t errors).
Proof.
  intros Ht w l es Hes. destruct (Ht w l es Hes) as (s1 & H1 & L1).
  unfold try_task. destruct (t w) as [[[]|e] w1]; simpl in H1.
  - exists s1. split; [done | lia].
  - assert (Happ : forall v,
              exists suf, heap (list_append errors v w1).2 !! l = Some (es ++ suf)
                          /\ length suf <= S n).
    { intros v. simpl. rewrite list_lookup_alter. case_decide as Hl.
      - subst l. rewrite H1. simpl. exists (s1 ++ [v]).
        rewrite app_assoc, length_app. simpl. split; [done | lia].
      - exists s1. split; [done | lia]. }
    destruct e; simpl; try apply Happ.
    exists s1. split; [done | lia].
Qed.

Lemma adds_for_each {A : Type} (l : list A) (body : A -> M unit) :
  (forall x, adds 1 (body x)) -> adds (length l) (for_each l body).
Proof.
  intros Hb. induction l as [|x l IH]; simpl.
  - by apply adds_keeps.
  - apply (adds_bind 1 (length l)); [apply Hb | intros _; apply IH].
Qed.

Local Ltac adds_steps :=
  repeat first
    [ apply (adds_keeps (print _)); done
    | apply adds_keeps; intros ?; apply sh_heap
    | apply (adds_keeps (mret _)); done
    | apply (adds_bind 0 0); [|intros ?] ].

Lemma adds_backup_c_drive (O : Oracle) (errors : loc) :
  adds 7 (try_task (backup_c_drive O errors) errors).
Proof.
  intros w l es Hes.
  assert (Hid : try_task (backup_c_drive O errors) errors w =
                backup_c_drive O errors w).
  { destruct (backup_c_drive_run O errors w) as (d0 & w0 & _ & _ & R & _).
    unfold try_task. by rewrite R. }
  rewrite Hid. clear Hid.
  destruct (shuffle_run O BACKUP_DIRS w) as (dirs & w1 & E1 & P & H1 & _).
  unfold backup_c_drive. rewrite (bind_ok _ _ _ _ _ E1).
  assert (Hloop : adds 7
    (for_each dirs (fun backup_dir =>
       try_task (backup_windows_dir O (path_join O (home O) backup_dir)) errors) ;;
     print "Backed up C drive")).
  { change 7 with (length BACKUP_DIRS + 0). rewrite <- (Permutation_length P).
    apply adds_bind; [|intros ?; apply (adds_keeps (print _)); done].
    apply adds_for_each. intros d. apply adds_try_task.
    unfold backup_windows_dir. adds_steps. }
  apply Hloop. by rewrite H1.
Qed.

Lemma adds_run_tasks (O : Oracle) (errors : loc) :
  adds 13 (run_tasks O 7 errors).
Proof.
  unfold run_tasks, catalog. cbn [take for_each].
  apply (adds_bind 1 12).
  { apply adds_try_task. unfold commit_notes.
    apply (adds_bind 0 0); [by apply adds_keeps; intros w; unfold chdir;
                            destruct (chdir_result O _)|intros ?].
    adds_steps. }
  intros _. apply (adds_bind 1 11).
  { apply adds_try_task. unfold backup_aws. adds_steps. }
  intros _. apply (adds_bind 1 10).
  { apply adds_try_task. unfold choco_upgrade. adds_steps. }
  intros _. apply (adds_bind 1 9).
  { apply adds_try_task. unfold wsl_upgrade. adds_steps. }
  intros _. apply (adds_bind 7 2); [apply adds_backup_c_drive|].
  intros _. apply (adds_bind 1 1).
  { apply adds_try_task. unfold backup_wsl. adds_steps. }
  intros _. apply (adds_bind 1 0).
  { apply adds_try_task. unfold check_restic_integrity. adds_steps. }
  intros _. by apply (adds_keeps (mret _)).
Qed.

(** X17. A run reports at most thirteen errors: one for each of the six
    tasks that are wrapped as a whole, and one for each of the seven
    directories. *)
Theorem at_most_thirteen_errors (O : Oracle) (es : list pyval) :
  heap (main O initial).2 !! errors_loc = Some es -> length es <= 13.
Proof.
  destruct (main_after_tasks O) as (tr & _ & _ & _ & H). rewrite H.
  destruct (adds_run_tasks O errors_loc (mkWorld [] [[]]) errors_loc [])
    as (suf & Hsuf & L); [done|].
  rewrite Hsuf. by intros [= <-].
Qed.

Lemma at_most_thirteen_errors_witness :
  exists es : list pyval,
    heap (main hostile initial).2 !! errors_loc = Some es /\
    length es = 13 /\ length es <= 13.
Proof.
  eexists. split; [vm_compute; reflexivity|].
  split; [vm_compute; reflexivity|].
  apply (at_most_thirteen_errors hostile). vm_compute. reflexivity.
Defined.

(** ** The steps of the commit notes task *)

(** X18. In the notes directory [commit_notes] first stages, then commits
    with the message ["Update "] followed by the time taken at the start of
    the task; the commit is started only when staging has exited with code
    zero. *)
Theorem commit_notes_steps (O : Oracle) (w : World) :
  chdir_result O (count is_chdir (trace w)) = None ->
  let n := count is_popen (trace w) in
  only is_popen (trace (commit_notes O w).2) =
    only is_popen (trace w) ++
    Popen ["git"; "add"; "."] None None ::
    (if succeeded (proc_result O n)
     then [Popen ["git"; "commit"; "-m"; "Update " +:+ ctime O] None None]
     else []).
Proof.
  intros Hch n. unfold commit_notes.
  rewrite bind_run. unfold chdir. rewrite Hch.
  set (w0 := emit (Chdir _) w).
  assert (Hn0 : count is_popen (trace w0) = n).
  { unfold w0. rewrite count_emit. simpl. apply Nat.add_0_r. }
  assert (Hp0 : only is_popen (trace w0) = only is_popen (trace w)).
  { unfold w0. simpl. rewrite only_app. simpl. apply app_nil_r. }
  clearbody w0. rewrite bind_run.
  pose proof (sh_result O ["git"; "add"; "."] true None None w0) as R1.
  pose proof (sh_popens O ["git"; "add"; "."] true None None w0) as P1.
  destruct (sh O ["git"; "add"; "."] true None None w0) as [r1 w1].
  cbn [fst snd] in R1, P1. rewrite Hn0 in R1. rewrite Hp0 in P1.
  assert (Hfail : forall e, r1 = Raise e -> succeeded (proc_result O n) = false).
  { intros e ->. destruct (proc_result O n) as [rc out err|text]; [|done].
    simpl in *. by destruct (rc =? 0)%Z. }
  assert (Hok : forall s, r1 = Ok s -> succeeded (proc_result O n) = true).
  { intros s ->. destruct (proc_result O n) as [rc out err|text]; [|done].
    simpl in *. by destruct (rc =? 0)%Z. }
  destruct r1 as [s|e].
  - rewrite (Hok s eq_refl), bind_run.
    pose proof (sh_popens O ["git"; "commit"; "-m"; "Update " +:+ ctime O]
                  false None None w1) as P2.
    destruct (sh O ["git"; "commit"; "-m"; "Update " +:+ ctime O]
                false None None w1) as [[s2|e2] w2]; cbn [snd] in P2.
    + simpl. rewrite only_app, P2, P1. simpl. by rewrite app_nil_r, <- app_assoc.
    + simpl. by rewrite P2, P1, <- app_assoc.
  - rewrite (Hfail e eq_refl). simpl. by rewrite P1.
Qed.

Lemma commit_notes_steps_witness :
  only is_popen (trace (commit_notes unchanged_notes initial).2) =
    [ Popen ["git"; "add"; "."] None None;
      Popen ["git"; "commit"; "-m"; "Update Tue Nov  3 10:23:00 2026"] None None ].
Proof.
  apply (commit_notes_steps unchanged_notes initial). reflexivity.
Defined.
